(** * Serial-to-TCP relay (class [TSPInstance]): a shallow embedding

    The relay bridges one serial port to the clients of a small TCP server.
    Its methods and event callbacks are embedded as computations in a state
    monad over a record that holds the fields of the instance ([this.x])
    together with what the callbacks observe of the Node runtime: the table
    of pending timers, the clock, and the ordered log of the calls made on
    sockets, the server, the serial port and the host API.  An uncaught
    JavaScript exception ends a computation and keeps the state reached. *)

From Stdlib Require Import List String Ascii ZArith NArith Bool Lia.
From Stdlib Require Import Strings.Byte Numbers.DecimalString.
Import ListNotations.
Local Open Scope string_scope.
Local Open Scope Z_scope.

Set Implicit Arguments.

(** ** Values exchanged with the outside *)

(** A [Buffer] is a sequence of bytes. *)
Definition Buffer := list byte.

(** What [socket.write] is given: a buffer (relayed serial data) or a
    string (the configured error message). *)
Inductive Payload : Type :=
| Buf (b : Buffer)
| Str (s : string).

(** An accepted client socket.  [sock_id] stands for the identity of the
    JavaScript object, which is what [indexOf] compares. *)
Record Socket : Type := mkSocket {
  sock_id : nat;
  remoteAddress : string;
  remotePort : nat
}.

Definition socket_eqb (a b : Socket) : bool := Nat.eqb (sock_id a) (sock_id b).

(** The [net.Server] held in [this.tServer]; [connections] is the value read
    from its property of that name (an absent property compares like 0).
    The Node versions that the host library runs on (18 and later) give a
    server no such property (it was removed with Node 15), and the module
    never assigns it: the value is 0 for every server the module creates. *)
Record Server : Type := mkServer {
  connections : nat
}.

(** The [SerialPort] object held in [this.sPort]; [sp_isOpen] is its
    [isOpen] property, maintained by the serial library. *)
Record SerialPortObj : Type := mkSerialPortObj {
  sp_isOpen : bool
}.

(** An entry of [this.foundPorts]. *)
Record PortDescriptor : Type := mkPortDescriptor {
  path : string;
  manufacturer : string
}.

(** An entry of the list [SerialPort.list()] resolves to.  Every test the
    code makes on these properties is a truthiness test, so an absent
    property is represented by the empty string. *)
Record PortInfo : Type := mkPortInfo {
  pi_path : string;
  pi_comName : string;
  pi_manufacturer : string;
  pi_locationId : string;
  pi_pnpId : string
}.

(** The configuration object.  Text inputs ([iport], [maxresponse],
    [errormessage]) carry their text; an absent [iport] or [sport] is the
    empty string, which is falsy like [undefined]. *)
Record Config : Type := mkConfig {
  iport : string;
  sport : string;
  baud : Z;
  bits : Z;
  stop : Z;
  parity : string;
  selectfirstfound : bool;
  response : bool;
  maxresponse : string;
  errormessage : string
}.

Definition set_sport (v : string) (c : Config) : Config :=
  mkConfig (iport c) v (baud c) (bits c) (stop c) (parity c)
           (selectfirstfound c) (response c) (maxresponse c) (errormessage c).

(** An error object handed to a callback. *)
Record ErrorObj : Type := mkErrorObj {
  message : string;
  disconnected : bool
}.

(** A JavaScript value as the instance and the field definitions hold
    them. *)
Inductive Value : Type :=
| VNum (z : Z)
| VStr (s : string)
| VBool (b : bool).

(** The members of the enumeration [InstanceStatus] of the host library
    that the module reads, by the names it reads them under. *)
Module InstanceStatus.

Inductive t : Type :=
| Ok | Error | ConnectionFailure | Connecting | BadConfig | Disconnected.

(** Whether the enumeration has a member of that name.  The host library
    names its members [Ok], [Connecting], [Disconnected],
    [ConnectionFailure], [BadConfig], [UnknownError] and [UnknownWarning];
    it has none named [Error], so the expression [InstanceStatus.Error]
    evaluates to [undefined]. *)
Definition defined (s : t) : bool :=
  match s with
  | Error => false
  | _ => true
  end.

End InstanceStatus.

(** Log levels, written ['info'], ['error'] and ['debug'] in the source. *)
Inductive LogLevel : Type := info | error | debug.

Definition level_str (l : LogLevel) : string :=
  match l with
  | info => "info"
  | error => "error"
  | debug => "debug"
  end.

(** What one emission of the status monitor carries. *)
Record StatusSnapshot : Type := mkSnapshot {
  level : LogLevel;
  statusMessage : string;
  statusCode : InstanceStatus.t
}.

(** Options given to [new SerialPort]. *)
Record PortOptions : Type := mkPortOptions {
  po_path : string;
  po_autoOpen : bool;
  po_baudRate : Z;
  po_dataBits : Z;
  po_stopBits : Z;
  po_parity : string
}.

(** Timer handles, and what a pending timer will run. *)
Definition Handle := nat.

Inductive Timer : Type :=
| ScanInterval (ms : Z)            (* setInterval(() => this.scanForPorts(), ms) *)
| WatchdogTimeout (delay : string) (* setTimeout(this.sendError.bind(this), delay) *).

(** Calls made on the outside world, in program order. *)
Inductive Effect : Type :=
| SockEnd (s : Socket)
| SockRemoveAllListeners (s : Socket)
| SockWrite (s : Socket) (p : Payload)
| SockOn (s : Socket) (event : string)
| ServerNew
| ServerMaxConnections (n : nat)
| ServerOn (event : string)
| ServerListen (port : Value)
| ServerClose
| ServerRemoveAllListeners
| SerialNew (o : PortOptions)
| SerialOn (event : string)
| SerialOpen
| SerialClose
| SerialRemoveAllListeners
| SerialWrite (b : Buffer)
| SerialPortList
| HostUpdateStatus (s : InstanceStatus.t) (m : option string)
| HostLog (l : LogLevel) (m : string)
| HostSetVariableValues (ip_addr : string)
| HostSetVariableDefinitions
| HostSetActionDefinitions.

(** ** The state *)

(** The fields of the instance, followed by the runtime: [timers] are the
    pending timers, [next_handle] the next fresh handle, [clock] what
    [Date.now()] returns, [trace] the calls made so far.  [emitted] is a
    history variable: the snapshots the status monitor has emitted, oldest
    first; no statement of the source reads it. *)
Record World : Type := mkWorld {
  LOG_DELAY : Z;
  foundPorts : list PortDescriptor;
  tSockets : option (list Socket);
  sPortPath : string;
  isOpen : bool;
  IPPort : Value;
  portScan : option Handle;
  tServer : option Server;
  sPort : option SerialPortObj;
  config : option Config;
  isListening : bool;
  startedAt : option Z;
  scanning : bool;
  SERIAL_INTERVAL : option Handle;
  lastStatus : option string;
  timers : list (Handle * Timer);
  next_handle : Handle;
  clock : Z;
  trace : list Effect;
  emitted : list StatusSnapshot
}.

Definition set_LOG_DELAY (v : Z) (w : World) : World :=
  mkWorld v (foundPorts w) (tSockets w) (sPortPath w) (isOpen w) (IPPort w) (portScan w) (tServer w) (sPort w) (config w) (isListening w) (startedAt w) (scanning w) (SERIAL_INTERVAL w) (lastStatus w) (timers w) (next_handle w) (clock w) (trace w) (emitted w).
Definition set_foundPorts (v : list PortDescriptor) (w : World) : World :=
  mkWorld (LOG_DELAY w) v (tSockets w) (sPortPath w) (isOpen w) (IPPort w) (portScan w) (tServer w) (sPort w) (config w) (isListening w) (startedAt w) (scanning w) (SERIAL_INTERVAL w) (lastStatus w) (timers w) (next_handle w) (clock w) (trace w) (emitted w).
Definition set_tSockets (v : option (list Socket)) (w : World) : World :=
  mkWorld (LOG_DELAY w) (foundPorts w) v (sPortPath w) (isOpen w) (IPPort w) (portScan w) (tServer w) (sPort w) (config w) (isListening w) (startedAt w) (scanning w) (SERIAL_INTERVAL w) (lastStatus w) (timers w) (next_handle w) (clock w) (trace w) (emitted w).
Definition set_sPortPath (v : string) (w : World) : World :=
  mkWorld (LOG_DELAY w) (foundPorts w) (tSockets w) v (isOpen w) (IPPort w) (portScan w) (tServer w) (sPort w) (config w) (isListening w) (startedAt w) (scanning w) (SERIAL_INTERVAL w) (lastStatus w) (timers w) (next_handle w) (clock w) (trace w) (emitted w).
Definition set_isOpen (v : bool) (w : World) : World :=
  mkWorld (LOG_DELAY w) (foundPorts w) (tSockets w) (sPortPath w) v (IPPort w) (portScan w) (tServer w) (sPort w) (config w) (isListening w) (startedAt w) (scanning w) (SERIAL_INTERVAL w) (lastStatus w) (timers w) (next_handle w) (clock w) (trace w) (emitted w).
Definition set_IPPort (v : Value) (w : World) : World :=
  mkWorld (LOG_DELAY w) (foundPorts w) (tSockets w) (sPortPath w) (isOpen w) v (portScan w) (tServer w) (sPort w) (config w) (isListening w) (startedAt w) (scanning w) (SERIAL_INTERVAL w) (lastStatus w) (timers w) (next_handle w) (clock w) (trace w) (emitted w).
Definition set_portScan (v : option Handle) (w : World) : World :=
  mkWorld (LOG_DELAY w) (foundPorts w) (tSockets w) (sPortPath w) (isOpen w) (IPPort w) v (tServer w) (sPort w) (config w) (isListening w) (startedAt w) (scanning w) (SERIAL_INTERVAL w) (lastStatus w) (timers w) (next_handle w) (clock w) (trace w) (emitted w).
Definition set_tServer (v : option Server) (w : World) : World :=
  mkWorld (LOG_DELAY w) (foundPorts w) (tSockets w) (sPortPath w) (isOpen w) (IPPort w) (portScan w) v (sPort w) (config w) (isListening w) (startedAt w) (scanning w) (SERIAL_INTERVAL w) (lastStatus w) (timers w) (next_handle w) (clock w) (trace w) (emitted w).
Definition set_sPort (v : option SerialPortObj) (w : World) : World :=
  mkWorld (LOG_DELAY w) (foundPorts w) (tSockets w) (sPortPath w) (isOpen w) (IPPort w) (portScan w) (tServer w) v (config w) (isListening w) (startedAt w) (scanning w) (SERIAL_INTERVAL w) (lastStatus w) (timers w) (next_handle w) (clock w) (trace w) (emitted w).
Definition set_config (v : option Config) (w : World) : World :=
  mkWorld (LOG_DELAY w) (foundPorts w) (tSockets w) (sPortPath w) (isOpen w) (IPPort w) (portScan w) (tServer w) (sPort w) v (isListening w) (startedAt w) (scanning w) (SERIAL_INTERVAL w) (lastStatus w) (timers w) (next_handle w) (clock w) (trace w) (emitted w).
Definition set_isListening (v : bool) (w : World) : World :=
  mkWorld (LOG_DELAY w) (foundPorts w) (tSockets w) (sPortPath w) (isOpen w) (IPPort w) (portScan w) (tServer w) (sPort w) (config w) v (startedAt w) (scanning w) (SERIAL_INTERVAL w) (lastStatus w) (timers w) (next_handle w) (clock w) (trace w) (emitted w).
Definition set_startedAt (v : option Z) (w : World) : World :=
  mkWorld (LOG_DELAY w) (foundPorts w) (tSockets w) (sPortPath w) (isOpen w) (IPPort w) (portScan w) (tServer w) (sPort w) (config w) (isListening w) v (scanning w) (SERIAL_INTERVAL w) (lastStatus w) (timers w) (next_handle w) (clock w) (trace w) (emitted w).
Definition set_scanning (v : bool) (w : World) : World :=
  mkWorld (LOG_DELAY w) (foundPorts w) (tSockets w) (sPortPath w) (isOpen w) (IPPort w) (portScan w) (tServer w) (sPort w) (config w) (isListening w) (startedAt w) v (SERIAL_INTERVAL w) (lastStatus w) (timers w) (next_handle w) (clock w) (trace w) (emitted w).
Definition set_SERIAL_INTERVAL (v : option Handle) (w : World) : World :=
  mkWorld (LOG_DELAY w) (foundPorts w) (tSockets w) (sPortPath w) (isOpen w) (IPPort w) (portScan w) (tServer w) (sPort w) (config w) (isListening w) (startedAt w) (scanning w) v (lastStatus w) (timers w) (next_handle w) (clock w) (trace w) (emitted w).
Definition set_lastStatus (v : option string) (w : World) : World :=
  mkWorld (LOG_DELAY w) (foundPorts w) (tSockets w) (sPortPath w) (isOpen w) (IPPort w) (portScan w) (tServer w) (sPort w) (config w) (isListening w) (startedAt w) (scanning w) (SERIAL_INTERVAL w) v (timers w) (next_handle w) (clock w) (trace w) (emitted w).
Definition set_timers (v : list (Handle * Timer)) (w : World) : World :=
  mkWorld (LOG_DELAY w) (foundPorts w) (tSockets w) (sPortPath w) (isOpen w) (IPPort w) (portScan w) (tServer w) (sPort w) (config w) (isListening w) (startedAt w) (scanning w) (SERIAL_INTERVAL w) (lastStatus w) v (next_handle w) (clock w) (trace w) (emitted w).
Definition set_next_handle (v : Handle) (w : World) : World :=
  mkWorld (LOG_DELAY w) (foundPorts w) (tSockets w) (sPortPath w) (isOpen w) (IPPort w) (portScan w) (tServer w) (sPort w) (config w) (isListening w) (startedAt w) (scanning w) (SERIAL_INTERVAL w) (lastStatus w) (timers w) v (clock w) (trace w) (emitted w).
Definition set_clock (v : Z) (w : World) : World :=
  mkWorld (LOG_DELAY w) (foundPorts w) (tSockets w) (sPortPath w) (isOpen w) (IPPort w) (portScan w) (tServer w) (sPort w) (config w) (isListening w) (startedAt w) (scanning w) (SERIAL_INTERVAL w) (lastStatus w) (timers w) (next_handle w) v (trace w) (emitted w).
Definition set_trace (v : list Effect) (w : World) : World :=
  mkWorld (LOG_DELAY w) (foundPorts w) (tSockets w) (sPortPath w) (isOpen w) (IPPort w) (portScan w) (tServer w) (sPort w) (config w) (isListening w) (startedAt w) (scanning w) (SERIAL_INTERVAL w) (lastStatus w) (timers w) (next_handle w) (clock w) v (emitted w).
Definition set_emitted (v : list StatusSnapshot) (w : World) : World :=
  mkWorld (LOG_DELAY w) (foundPorts w) (tSockets w) (sPortPath w) (isOpen w) (IPPort w) (portScan w) (tServer w) (sPort w) (config w) (isListening w) (startedAt w) (scanning w) (SERIAL_INTERVAL w) (lastStatus w) (timers w) (next_handle w) (clock w) (trace w) v.

(** The state the constructor leaves: fields it does not assign are
    [undefined] ([None], or [false] where only truthiness is ever tested). *)
Definition constructed : World :=
  mkWorld 10000 [] (Some []) "none" false (VNum 32100) None None None None
          false None false None None [] O 0 [] [].

(** ** The monad of handlers *)

Inductive Outcome (A : Type) : Type :=
| Done (a : A) (w : World)
| Thrown (e : string) (w : World).
Arguments Thrown {A} e w.

Definition M (A : Type) : Type := World -> Outcome A.

Definition ret {A} (a : A) : M A := fun w => Done a w.

Definition bind {A B} (m : M A) (f : A -> M B) : M B :=
  fun w => match m w with
           | Done a w' => f a w'
           | Thrown e w' => Thrown e w'
           end.

Definition throw {A} (e : string) : M A := fun w => Thrown e w.

(** [try { m } catch (error) { h error }] *)
Definition try_catch (m : M unit) (h : string -> M unit) : M unit :=
  fun w => match m w with
           | Done a w' => Done a w'
           | Thrown e w' => h e w'
           end.

Definition get {A} (f : World -> A) : M A := fun w => Done (f w) w.
Definition modify (f : World -> World) : M unit := fun w => Done tt (f w).

(** The state a computation ends in, normally or not. *)
Definition final {A} (o : Outcome A) : World :=
  match o with
  | Done _ w => w
  | Thrown _ w => w
  end.

Definition completes {A} (o : Outcome A) : bool :=
  match o with
  | Done _ _ => true
  | Thrown _ _ => false
  end.

Declare Scope relay_scope.
Delimit Scope relay_scope with relay.
Notation "x <- m ;; k" := (bind m (fun x => k))
  (at level 61, m at next level, right associativity) : relay_scope.
Notation "m ;; k" := (bind m (fun _ => k))
  (at level 61, right associativity) : relay_scope.
Local Open Scope relay_scope.

Definition when (b : bool) (m : M unit) : M unit := if b then m else ret tt.

(** [l.forEach(f)] *)
Fixpoint forEach {A} (f : A -> M unit) (l : list A) : M unit :=
  match l with
  | [] => ret tt
  | x :: l' => f x ;; forEach f l'
  end.

(** Reading a property of a field that may be [undefined]. *)
Definition deref {A} (field : World -> option A) (e : string) : M A :=
  o <- get field ;;
  match o with
  | Some a => ret a
  | None => throw e
  end.

Definition TypeError_undefined (prop : string) : string :=
  "TypeError: Cannot read properties of undefined (reading '" ++ prop ++ "')".

(** ** Runtime primitives *)

Definition emit (e : Effect) : M unit :=
  modify (fun w => set_trace (trace w ++ [e]) w).

Definition Date_now : M Z := get clock.

Definition fresh_handle : M Handle :=
  h <- get next_handle ;;
  modify (set_next_handle (S h)) ;;
  ret h.

Definition setInterval (ms : Z) : M Handle :=
  h <- fresh_handle ;;
  modify (fun w => set_timers (timers w ++ [(h, ScanInterval ms)]) w) ;;
  ret h.

Definition setTimeout (delay : string) : M Handle :=
  h <- fresh_handle ;;
  modify (fun w => set_timers (timers w ++ [(h, WatchdogTimeout delay)]) w) ;;
  ret h.

Definition cancel (h : Handle) (ts : list (Handle * Timer)) : list (Handle * Timer) :=
  filter (fun t => negb (Nat.eqb (fst t) h)) ts.

(** [clearInterval(x)]: cancels the timer [x] if it is pending (Node's
    [clearInterval] and [clearTimeout] cancel either kind); does nothing
    for [undefined] or a handle that is no longer pending. *)
Definition clearInterval (x : option Handle) : M unit :=
  match x with
  | Some h => modify (fun w => set_timers (cancel h (timers w)) w)
  | None => ret tt
  end.

(** ** JavaScript helpers *)

(** Truthiness of a string: the empty string is falsy. *)
Definition truthy (s : string) : bool := negb (s =? "")%string.

(** Truthiness of an array: every array is truthy, the empty one too. *)
Definition array_truthy {A} (l : list A) : bool := true.

Definition isSome {A} (o : option A) : bool :=
  match o with
  | Some _ => true
  | None => false
  end.

Definition newline : string := String (ascii_of_nat 10) "".

Definition string_of_nat (n : nat) : string := NilZero.string_of_uint (Nat.to_uint n).

(** The text of a value, as a template literal gives it; the numbers held
    are integers. *)
Definition text_of (v : Value) : string :=
  match v with
  | VNum z => NilZero.string_of_int (Z.to_int z)
  | VStr s => s
  | VBool true => "true"
  | VBool false => "false"
  end.

(** [buffer.toString('latin1')]: one character per byte, with its code. *)
Definition latin1 (b : Buffer) : string := string_of_list_ascii (map ascii_of_byte b).

Definition hex_digit (n : N) : ascii :=
  match n with
  | 0 => "0" | 1 => "1" | 2 => "2" | 3 => "3" | 4 => "4" | 5 => "5"
  | 6 => "6" | 7 => "7" | 8 => "8" | 9 => "9" | 10 => "a" | 11 => "b"
  | 12 => "c" | 13 => "d" | 14 => "e" | _ => "f"
  end%N%char.

(** [Number(code).toString(16)] for a character code below 256. *)
Definition toString16 (code : N) : string :=
  if (code <? 16)%N then String (hex_digit code) ""
  else String (hex_digit (code / 16)) (String (hex_digit (code mod 16)) "").

(** [s.slice(-2)] *)
Definition slice_last2 (s : string) : string :=
  substring (String.length s - 2) 2 s.

(** [toHex(data)], with the default empty delimiter (the only way the
    class calls it). *)
Definition toHex (data : string) : string :=
  String.concat ""
    (map (fun hex => slice_last2 ("0" ++ toString16 (N_of_ascii hex)))
         (list_ascii_of_string data)).

(** [l.indexOf(x)], by object identity; -1 when [x] is not in [l]. *)
Fixpoint indexOf (x : Socket) (l : list Socket) : Z :=
  match l with
  | [] => -1
  | y :: l' =>
      if socket_eqb y x then 0
      else let i := indexOf x l' in if i <? 0 then -1 else i + 1
  end.

Fixpoint remove_at {A} (i : nat) (l : list A) : list A :=
  match l, i with
  | [], _ => []
  | _ :: l', O => l'
  | y :: l', S i' => y :: remove_at i' l'
  end.

(** [l.splice(start, 1)]: a negative [start] counts from the end, so that
    [splice(-1, 1)] removes the last element. *)
Definition splice1 {A} (start : Z) (l : list A) : list A :=
  let len := Z.of_nat (List.length l) in
  let from := if start <? 0 then Z.max (len + start) 0 else Z.min start len in
  remove_at (Z.to_nat from) l.

(** [l.findIndex(port => port.path == p)] *)
Fixpoint findIndex (p : string) (l : list PortDescriptor) : Z :=
  match l with
  | [] => -1
  | d :: l' =>
      if (path d =? p)%string then 0
      else let i := findIndex p l' in if i <? 0 then -1 else i + 1
  end.

(** [parseInt] on a value that is already an integer. *)
Definition parseInt (z : Z) : Z := z.

Section Relay.

(** The text each member contributes to [l + m + s]: the string it stands
    for in the host library, whose source is not part of the repository
    (a missing member contributes the text of [undefined]). *)
Variable status_repr : InstanceStatus.t -> string.

(** ** Host API *)

Definition updateStatus (s : InstanceStatus.t) (m : option string) : M unit :=
  emit (HostUpdateStatus s m).

Definition log (l : LogLevel) (m : string) : M unit := emit (HostLog l m).

(** ** Teardown *)

Definition clearAll : M unit :=
  ps <- get portScan ;;
  when (isSome ps)
       (clearInterval ps ;; modify (set_portScan None)) ;;
  ts <- get tSockets ;;
  match ts with
  | Some socks =>
      forEach (fun sock => emit (SockEnd sock) ;;
                           emit (SockRemoveAllListeners sock)) socks ;;
      modify (set_tSockets None)
  | None => ret tt
  end ;;
  srv <- get tServer ;;
  match srv with
  | Some server =>
      when (0 <? connections server)%nat (emit ServerClose) ;;
      emit ServerRemoveAllListeners ;;
      modify (set_tServer None)
  | None => ret tt
  end ;;
  sp <- get sPort ;;
  match sp with
  | Some port =>
      emit SerialRemoveAllListeners ;;
      when (sp_isOpen port) (emit SerialClose) ;;
      modify (set_sPort None)
  | None => ret tt
  end.

Definition destroy : M unit :=
  clearAll ;;
  si <- get SERIAL_INTERVAL ;;
  clearInterval si ;;
  updateStatus InstanceStatus.Disconnected (Some "Disabled") ;;
  log debug "Destroyed".

(** ** Status monitor *)

(** [l + m + s] *)
Definition fingerprint (sn : StatusSnapshot) : string :=
  level_str (level sn) ++ statusMessage sn ++ status_repr (statusCode sn).

(** [this.startedAt + this.LOG_DELAY > Date.now()]; with [startedAt]
    undefined the sum is NaN and the comparison is false. *)
Definition within_log_delay (w : World) : bool :=
  match startedAt w with
  | Some t => clock w <? t + LOG_DELAY w
  | None => false
  end.

(** The chain of conditions of [doUpdateStatus] with the level, message
    and member each rule assigns; [None] is [s = null]. *)
Definition select_status (err : option ErrorObj) (w : World) : option StatusSnapshot :=
  if isListening w then
    Some (mkSnapshot info ("Listening on TCP port " ++ text_of (IPPort w)) InstanceStatus.Ok)
  else
    match err with
    | Some e => Some (mkSnapshot error ("Error: " ++ message e) InstanceStatus.Error)
    | None =>
        if negb (array_truthy (foundPorts w)) || within_log_delay w then None
        else if (List.length (foundPorts w) =? 0)%nat then
          Some (mkSnapshot error "No serial ports detected" InstanceStatus.ConnectionFailure)
        else if isSome (sPort w) && negb (sPortPath w =? "none")%string then
          Some (mkSnapshot info ("Connecting to " ++ sPortPath w) InstanceStatus.Connecting)
        else
          Some (mkSnapshot error "No serial port configured" InstanceStatus.BadConfig)
    end.

(** [fp != this.lastStatus] *)
Definition differs (fp : string) (last : option string) : bool :=
  match last with
  | Some s => negb (fp =? s)%string
  | None => true
  end.

(** [s != null] holds when a rule assigned [s] a member that the
    enumeration has: it is false of [null] and of [undefined] alike. *)
Definition doUpdateStatus (err : option ErrorObj) : M unit :=
  st <- get (select_status err) ;;
  last <- get lastStatus ;;
  match st with
  | Some sn =>
      when (InstanceStatus.defined (statusCode sn) && differs (fingerprint sn) last)
           (updateStatus (statusCode sn) (Some (statusMessage sn)) ;;
            log (level sn) (statusMessage sn) ;;
            modify (set_lastStatus (Some (fingerprint sn))) ;;
            modify (fun w => set_emitted (emitted w ++ [sn]) w))
  | None => ret tt
  end.

(** ** Dynamic variable *)

Definition updateVariables : M unit :=
  socks <- deref tSockets (TypeError_undefined "length") ;;
  let addr :=
    if (0 <? List.length socks)%nat then
      String.concat newline
        (map (fun s => remoteAddress s ++ ":" ++ string_of_nat (remotePort s)) socks)
    else "Not connected" in
  emit (HostSetVariableValues addr).

Definition init_variables : M unit := emit HostSetVariableDefinitions.

(** [init_actions] registers the two port-selection actions; their
    callbacks are [select_port] below. *)
Definition init_actions : M unit := emit HostSetActionDefinitions.

(** ** Response watchdog *)

Definition sendError : M unit :=
  updateStatus InstanceStatus.Error None ;;
  cfg <- deref config (TypeError_undefined "maxresponse") ;;
  log error ("Error: No response received via Serial connection in the max allotted time of "
             ++ maxresponse cfg ++ "ms") ;;
  let msg := errormessage cfg in
  try_catch
    (socks <- deref tSockets (TypeError_undefined "forEach") ;;
     forEach (fun sock => emit (SockWrite sock (Str msg))) socks)
    (fun e => log debug ("Unable to send error message to sockets: " ++ e)) ;;
  si <- get SERIAL_INTERVAL ;;
  clearInterval si.

(** ** TCP server *)

(** Callback of the server's ['connection'] event. *)
Definition on_connection (socket : Socket) : M unit :=
  socks <- deref tSockets (TypeError_undefined "push") ;;
  modify (set_tSockets (Some (socks ++ [socket])%list)) ;;
  updateVariables ;;
  emit (SockOn socket "err") ;;
  emit (SockOn socket "close") ;;
  emit (SockOn socket "data").

(** Callback of a client socket's ['close'] event. *)
Definition on_socket_close (socket : Socket) : M unit :=
  socks <- deref tSockets (TypeError_undefined "splice") ;;
  let socks' := splice1 (indexOf socket socks) socks in
  modify (set_tSockets (Some socks')) ;;
  modify (set_isListening (0 <? List.length socks')%nat) ;;
  updateVariables.

(** Callback of a client socket's ['data'] event. *)
Definition on_socket_data (data : Buffer) : M unit :=
  log debug ("TCP: " ++ toHex (latin1 data ++ " ")) ;;
  _ <- deref sPort (TypeError_undefined "write") ;;
  emit (SerialWrite data) ;;
  cfg <- deref config (TypeError_undefined "response") ;;
  when (response cfg)
       (h <- setTimeout (maxresponse cfg) ;;
        modify (set_SERIAL_INTERVAL (Some h))).

Definition init_tcp : M unit :=
  emit ServerNew ;;
  modify (set_tServer (Some (mkServer 0))) ;;
  emit (ServerMaxConnections 4) ;;
  emit (ServerOn "error") ;;
  emit (ServerOn "connection") ;;
  port <- get IPPort ;;
  emit (ServerListen port) ;;
  modify (set_isListening true) ;;
  doUpdateStatus None.

(** ** Serial port *)

(** Callback of the serial port's ['close'] event.  The library passes the
    disconnect error, or [null] when the port was closed on request. *)
Definition on_serial_close (err : option ErrorObj) : M unit :=
  doUpdateStatus err ;;
  match err with
  | Some e =>
      when (disconnected e)
           (socks <- deref tSockets (TypeError_undefined "forEach") ;;
            forEach (fun sock => emit (SockEnd sock)) socks ;;
            _ <- deref tServer (TypeError_undefined "close") ;;
            emit ServerClose ;;
            modify (set_isListening false))
  | None => throw "TypeError: Cannot read properties of null (reading 'disconnected')"
  end.

(** Callback of the serial port's ['data'] event. *)
Definition on_serial_data (data : Buffer) : M unit :=
  socks <- deref tSockets (TypeError_undefined "length") ;;
  when (0 <? List.length socks)%nat
       (log debug ("COM> " ++ toHex (latin1 data ++ " ")) ;;
        forEach (fun sock => emit (SockWrite sock (Buf data))) socks) ;;
  si <- get SERIAL_INTERVAL ;;
  clearInterval si.

Definition init_serial : M unit :=
  p <- get sPortPath ;;
  if (p =? "")%string || (p =? "none")%string then ret tt
  else
    cfg <- deref config (TypeError_undefined "baud") ;;
    let portOptions :=
      mkPortOptions p false (parseInt (baud cfg)) (parseInt (bits cfg))
                    (parseInt (stop cfg)) (parity cfg) in
    emit (SerialNew portOptions) ;;
    modify (set_sPort (Some (mkSerialPortObj false))) ;;
    emit (SerialOn "error") ;;
    emit (SerialOn "open") ;;
    emit (SerialOn "close") ;;
    emit (SerialOn "data") ;;
    emit SerialOpen ;;
    doUpdateStatus None.

(** ** Port discovery *)

Definition findPorts : M unit :=
  busy <- get scanning ;;
  if busy then ret tt
  else
    modify (set_scanning true) ;;
    modify (set_foundPorts []) ;;
    emit SerialPortList.

(** What the success callback pushes for one listed port. *)
Definition descriptor_of (p : PortInfo) : PortDescriptor :=
  mkPortDescriptor
    (if truthy (pi_path p) then pi_path p else pi_comName p)
    (if truthy (pi_manufacturer p) then pi_manufacturer p else "Internal").

(** Success callback of [SerialPort.list()]. *)
Definition on_list_resolved (ports : list PortInfo) : M unit :=
  forEach (fun p =>
             when (truthy (pi_locationId p) || truthy (pi_pnpId p))
                  (modify (fun w => set_foundPorts (foundPorts w ++ [descriptor_of p]) w)))
          ports ;;
  found <- get foundPorts ;;
  when (0 <? List.length found)%nat
       (modify (set_foundPorts (mkPortDescriptor "none" "Not configured" :: found))) ;;
  doUpdateStatus None ;;
  modify (set_scanning false).

(** Failure callback of [SerialPort.list()]; [err] is the rejection
    converted to a string. *)
Definition on_list_rejected (err : string) : M unit :=
  log debug ("SerialPort.list: " ++ err) ;;
  modify (set_scanning false).

Definition scanForPorts : M unit :=
  found <- get foundPorts ;;
  sp <- get sPort ;;
  let setSerial := (0 <? List.length found)%nat && negb (isSome sp) in
  let setSerial := setSerial
                   || match sp with
                      | Some port => negb (sp_isOpen port)
                      | None => false
                      end in
  when (match sp with
        | Some port => negb (sp_isOpen port)
        | None => true
        end)
       (doUpdateStatus None ;; findPorts) ;;
  when setSerial init_serial.

(** ** Configuration *)

Definition applyConfig (cfg : Config) : M unit :=
  modify (set_config (Some cfg)) ;;
  clearAll ;;
  modify (set_isListening false) ;;
  modify (set_IPPort (if truthy (iport cfg) then VStr (iport cfg) else VNum 32100)) ;;
  modify (set_sPortPath (if truthy (sport cfg) then sport cfg else "none")) ;;
  modify (set_tSockets (Some [])) ;;
  modify (set_isOpen false) ;;
  now <- Date_now ;;
  modify (set_startedAt (Some now)) ;;
  h <- setInterval 5000 ;;
  modify (set_portScan (Some h)) ;;
  scanForPorts ;;
  init_actions ;;
  init_variables ;;
  updateVariables.

(** ** Actions *)

(** [this.foundPorts[index]]; reading [.path] of a missing entry throws. *)
Definition port_at (index : Z) : M PortDescriptor :=
  found <- get foundPorts ;;
  match (if index <? 0 then None else nth_error found (Z.to_nat index)) with
  | Some d => ret d
  | None => throw (TypeError_undefined "path")
  end.

(** The block both callbacks run once the new index is accepted. *)
Definition reselect (index : Z) (announce : string) : M unit :=
  d <- port_at index ;;
  log info (announce ++ path d) ;;
  sp <- get sPort ;;
  cfg <- deref config (TypeError_undefined "sport") ;;
  match sp with
  | Some port =>
      log info ("First closing already open port: " ++ sport cfg) ;;
      emit SerialRemoveAllListeners ;;
      when (sp_isOpen port) (emit SerialClose) ;;
      modify (set_sPort None)
  | None => ret tt
  end ;;
  modify (set_config (Some (set_sport (path d) cfg))) ;;
  applyConfig (set_sport (path d) cfg).

(** [self.foundPorts.findIndex((port) => port.path == self.config.sport)]:
    the predicate, which reads [self.config.sport], runs only if there is
    a port to test. *)
Definition find_configured_index : M Z :=
  found <- get foundPorts ;;
  match found with
  | [] => ret (-1)
  | _ :: _ =>
      cfg <- deref config (TypeError_undefined "sport") ;;
      ret (findIndex (sport cfg) found)
  end.

Definition previousSPort_callback : M unit :=
  try_catch
    (found_at <- find_configured_index ;;
     let index := found_at - 1 in
     if 0 <? index then
       reselect index "Selecting previous Serial port in list: "
     else
       log info "Cannot select previous Serial port in list: Already on the first port in the list.")
    (fun e => log debug ("Error Selecting previous Serial Port in List: " ++ e)).

Definition nextSPort_callback : M unit :=
  try_catch
    (found_at <- find_configured_index ;;
     let index := found_at + 1 in
     found <- get foundPorts ;;
     if index <? Z.of_nat (List.length found) then
       reselect index "Selecting next Serial port in list: "
     else
       log info "Cannot select next Serial port in list: Already on the last port in the list.")
    (fun e => log debug ("Error Selecting next Serial Port in List: " ++ e)).

(** ** The event loop *)

(** What the runtime can deliver to the instance.  Handlers run one at a
    time, each to completion. *)
Inductive Event : Type :=
| EvInit (cfg : Config)                     (* init / configUpdated *)
| EvDestroy
| EvTimer (h : Handle)                      (* the pending timer [h] fires *)
| EvListResolved (ports : list PortInfo)
| EvListRejected (err : string)
| EvSerialOpen
| EvSerialError (e : ErrorObj)
| EvSerialClose (err : option ErrorObj)
| EvSerialData (data : Buffer)
| EvServerError (e : ErrorObj)
| EvConnection (socket : Socket)
| EvSocketClose (socket : Socket)
| EvSocketData (socket : Socket) (data : Buffer)
| EvPreviousSPort
| EvNextSPort.

Fixpoint lookup_timer (h : Handle) (ts : list (Handle * Timer)) : option Timer :=
  match ts with
  | [] => None
  | (h', t) :: ts' => if Nat.eqb h' h then Some t else lookup_timer h ts'
  end.

(** The serial library updates [isOpen] before it emits ['open'] or
    ['close']. *)
Definition mark_port (open : bool) : M unit :=
  modify (fun w => match sPort w with
                   | Some _ => set_sPort (Some (mkSerialPortObj open)) w
                   | None => w
                   end).

Definition handle (ev : Event) : M unit :=
  match ev with
  | EvInit cfg => applyConfig cfg
  | EvDestroy => destroy
  | EvTimer h =>
      ts <- get timers ;;
      match lookup_timer h ts with
      | Some (ScanInterval _) => scanForPorts
      | Some (WatchdogTimeout _) =>
          modify (fun w => set_timers (cancel h (timers w)) w) ;;
          sendError
      | None => ret tt
      end
  | EvListResolved ports => on_list_resolved ports
  | EvListRejected err => on_list_rejected err
  | EvSerialOpen => mark_port true ;; init_tcp
  | EvSerialError e => doUpdateStatus (Some e)
  | EvSerialClose err => mark_port false ;; on_serial_close err
  | EvSerialData data => on_serial_data data
  | EvServerError e => doUpdateStatus (Some e)
  | EvConnection socket => on_connection socket
  | EvSocketClose socket => on_socket_close socket
  | EvSocketData _ data => on_socket_data data
  | EvPreviousSPort => previousSPort_callback
  | EvNextSPort => nextSPort_callback
  end.

(** One turn of the loop: the clock reads [now] while the handler of [ev]
    runs; an exception that escapes the handler ends the turn. *)
Definition step (w : World) (turn : Z * Event) : World :=
  final (handle (snd turn) (set_clock (fst turn) w)).

Definition run (w : World) (turns : list (Z * Event)) : World :=
  fold_left step turns w.

End Relay.

(** * Properties *)

(** ** Reading the call log *)

(** The buffers written to the serial port, oldest first. *)
Fixpoint serial_written (tr : list Effect) : list Buffer :=
  match tr with
  | [] => []
  | SerialWrite b :: tr' => b :: serial_written tr'
  | _ :: tr' => serial_written tr'
  end.

(** The writes made on client sockets, oldest first. *)
Fixpoint socket_written (tr : list Effect) : list (Socket * Payload) :=
  match tr with
  | [] => []
  | SockWrite s p :: tr' => (s, p) :: socket_written tr'
  | _ :: tr' => socket_written tr'
  end.

(** The number of enumeration requests made. *)
Fixpoint list_requests (tr : list Effect) : nat :=
  match tr with
  | [] => O
  | SerialPortList :: tr' => S (list_requests tr')
  | _ :: tr' => list_requests tr'
  end.

(** The turns of the loop in which clients send data. *)
Definition client_turns (sends : list (Z * Socket * Buffer)) : list (Z * Event) :=
  map (fun t => (fst (fst t), EvSocketData (snd (fst t)) (snd t))) sends.

(** The turns of the loop in which the serial port delivers data. *)
Definition serial_turns (reads : list (Z * Buffer)) : list (Z * Event) :=
  map (fun t => (fst t, EvSerialData (snd t))) reads.

(** One copy of [data] for each socket of [socks], in list order. *)
Definition broadcast (socks : list Socket) (data : Buffer) : list (Socket * Payload) :=
  map (fun s => (s, Buf data)) socks.

(** The state [doUpdateStatus] leaves when it emits the snapshot [sn]. *)
Definition with_emission (fp : string) (sn : StatusSnapshot) (w : World) : World :=
  set_emitted (emitted w ++ [sn])
    (set_lastStatus (Some fp)
       (set_trace (trace w ++ [HostUpdateStatus (statusCode sn) (Some (statusMessage sn));
                               HostLog (level sn) (statusMessage sn)]) w)).

(** The log line of a response timeout. *)
Definition timeout_log (cfg : Config) : string :=
  "Error: No response received via Serial connection in the max allotted time of "
  ++ maxresponse cfg ++ "ms".

(** The calls [clearAll] makes in the state [w]: every client socket is
    ended and stripped of its listeners; the server, if there is one, is
    closed when it reports a connection and stripped of its listeners; the
    serial port, if there is one, is stripped of its listeners and closed
    when open. *)
Definition teardown_calls (w : World) : list Effect :=
  (match tSockets w with
   | Some socks => flat_map (fun s => [SockEnd s; SockRemoveAllListeners s]) socks
   | None => []
   end
   ++ match tServer w with
      | Some server =>
          (if (0 <? connections server)%nat then [ServerClose] else [])
          ++ [ServerRemoveAllListeners]
      | None => []
      end
   ++ match sPort w with
      | Some port =>
          SerialRemoveAllListeners :: (if sp_isOpen port then [SerialClose] else [])
      | None => []
      end)%list.

(** The calls a computation adds to the log of [w]. *)
Definition calls_since (w w' : World) : list Effect :=
  skipn (List.length (trace w)) (trace w').

(** ** A concrete session *)

(** The strings of the host library for the status codes. *)
Definition status_names (s : InstanceStatus.t) : string :=
  match s with
  | InstanceStatus.Ok => "ok"
  | InstanceStatus.Error => "undefined"
  | InstanceStatus.ConnectionFailure => "connection_failure"
  | InstanceStatus.Connecting => "connecting"
  | InstanceStatus.BadConfig => "bad_config"
  | InstanceStatus.Disconnected => "disconnected"
  end.

Definition sample_config : Config :=
  mkConfig "9000" "COM5" 9600 8 1 "none" false true "500" "ERR:NORESPONSE".

Definition com5 : PortInfo := mkPortInfo "COM5" "" "FTDI" "1-1.2" "".

Definition client_a : Socket := mkSocket 1 "10.0.0.1" 4001.
Definition client_b : Socket := mkSocket 2 "10.0.0.2" 4002.

(** Configuration is applied and the first scan finds COM5. *)
Definition session_discovered : list (Z * Event) :=
  [(0, EvInit sample_config); (100, EvListResolved [com5])].

(** The next tick opens COM5 and the server starts. *)
Definition session_listening : list (Z * Event) :=
  (session_discovered
   ++ [(5000, EvTimer 0%nat); (5100, EvListResolved [com5]); (5200, EvSerialOpen)])%list.

(** Two clients connect. *)
Definition session_two_clients : list (Z * Event) :=
  (session_listening ++ [(6000, EvConnection client_a); (6001, EvConnection client_b)])%list.

(** One client connects, sends a byte and leaves. *)
Definition session_client_left : list (Z * Event) :=
  (session_listening
   ++ [(6000, EvConnection client_a);
       (7000, EvSocketData client_a [x01]%byte);
       (7100, EvSocketClose client_a)])%list.

Definition world_discovered : World := run status_names constructed session_discovered.
Definition world_listening : World := run status_names constructed session_listening.
Definition world_two_clients : World := run status_names constructed session_two_clients.
Definition world_client_left : World := run status_names constructed session_client_left.

(** ** Vocabulary of the status monitor *)

(** No two neighbours of [l] are equal. *)
Definition no_repeat {A} (l : list A) : Prop :=
  forall (l1 : list A) (a b : A) (l2 : list A), l = (l1 ++ a :: b :: l2)%list -> a <> b.

Definition last_snapshot (l : list StatusSnapshot) : option StatusSnapshot :=
  match rev l with
  | sn :: _ => Some sn
  | [] => None
  end.

(** The status calls of the log that come from [doUpdateStatus]: those
    that carry a message and a code other than [Disconnected] ([sendError]
    passes no message, [destroy] passes [Disconnected]). *)
Fixpoint monitor_calls (tr : list Effect) : list (InstanceStatus.t * string) :=
  match tr with
  | [] => []
  | HostUpdateStatus InstanceStatus.Disconnected _ :: tr' => monitor_calls tr'
  | HostUpdateStatus s (Some m) :: tr' => (s, m) :: monitor_calls tr'
  | _ :: tr' => monitor_calls tr'
  end.

Definition snapshot_call (sn : StatusSnapshot) : InstanceStatus.t * string :=
  (statusCode sn, statusMessage sn).

(** A property of states kept by a computation however it ends. *)
Definition preserves (P : World -> Prop) {A} (m : M A) : Prop :=
  forall w : World, P w -> P (final (m w)).

(** The monitor's record is the fingerprint of its latest emission, its
    emissions never repeat, and they are the monitor's status calls of the
    log. *)
Definition monitor_consistent (status_repr : InstanceStatus.t -> string) (w : World) : Prop :=
  lastStatus w = option_map (fingerprint status_repr) (last_snapshot (emitted w))
  /\ no_repeat (emitted w)
  /\ monitor_calls (trace w) = map snapshot_call (emitted w).

Definition keeps (status_repr : InstanceStatus.t -> string) {A} (m : M A) : Prop :=
  preserves (monitor_consistent status_repr) m.

(** Data the two clients send, with the time of each event. *)
Definition sample_sends : list (Z * Socket * Buffer) :=
  [(7000, client_a, [x01; x02]%byte); (7050, client_b, [xff]%byte);
   (7100, client_a, [x03]%byte)].

(** Data the serial port delivers. *)
Definition sample_reads : list (Z * Buffer) :=
  [(8000, [x01; x02]%byte); (8100, [x41]%byte)].

(** A client sends twice before the device answers. *)
Definition world_two_writes : World :=
  run status_names world_two_clients
      [(7000, EvSocketData client_a [x01]%byte); (7100, EvSocketData client_a [x02]%byte)].

(** The device answers 100 ms after the second write. *)
Definition world_answered : World :=
  run status_names world_two_writes [(7200, EvSerialData [x41]%byte)].

Definition disconnect_error : ErrorObj := mkErrorObj "Port disconnected" true.

(** The server listens and one client is connected. *)
Definition world_one_client : World :=
  run status_names world_listening [(6000, EvConnection client_a)].

(** After discovery found COM5, the next tick's enumeration fails. *)
Definition world_failed_scan : World :=
  run status_names world_discovered
      [(5000, EvTimer 0%nat); (5100, EvListRejected "Error: enumeration failed")].

(** [w'] has the pending timers and the discovery handle of [w]. *)
Definition same_schedule (w w' : World) : Prop :=
  timers w' = timers w /\ portScan w' = portScan w /\ next_handle w' = next_handle w.

(** ** Further vocabulary *)

(** The two callbacks of [SerialPort.list()]. *)
Definition is_list_callback (ev : Event) : bool :=
  match ev with
  | EvListResolved _ | EvListRejected _ => true
  | _ => false
  end.

(** An enumeration is in flight, [n] have been requested so far and the
    discovered set is [found]. *)
Definition scan_in_flight (n : nat) (found : list PortDescriptor) (w : World) : Prop :=
  scanning w = true /\ list_requests (trace w) = n /\ foundPorts w = found.

(** The turns that are not callbacks of the enumeration. *)
Definition no_list_callback (turns : list (Z * Event)) : bool :=
  forallb (fun t => negb (is_list_callback (snd t))) turns.

(** A listed port carries hardware identification. *)
Definition has_hardware_id (p : PortInfo) : bool :=
  truthy (pi_locationId p) || truthy (pi_pnpId p).

(** The discovered set a successful enumeration of [ports] produces. *)
Definition discovered (ports : list PortInfo) : list PortDescriptor :=
  match map descriptor_of (filter has_hardware_id ports) with
  | [] => []
  | d :: ds => mkPortDescriptor "none" "Not configured" :: d :: ds
  end.

(** The turns in which the timer [h] fires at the given times. *)
Definition tick_turns (h : Handle) (times : list Z) : list (Z * Event) :=
  map (fun t => (t, EvTimer h)) times.

(** The serial path is one that [init_serial] opens. *)
Definition path_configured (p : string) : bool :=
  negb ((p =? "")%string || (p =? "none")%string).

(** The fields a configuration fixes until the next one. *)
Definition settings (w : World) :=
  (config w, IPPort w, sPortPath w, startedAt w, portScan w).

(** The value [updateVariables] publishes for the list [socks]. *)
Definition ip_addr_of (socks : list Socket) : string :=
  if (0 <? List.length socks)%nat then
    String.concat newline
      (map (fun s => remoteAddress s ++ ":" ++ string_of_nat (remotePort s)) socks)
  else "Not connected".

(** Every pending timer has a handle below the next fresh one. *)
Definition handles_fresh (w : World) : Prop :=
  Forall (fun t => (fst t < next_handle w)%nat) (timers w).

(** The snapshot of the first rule of the status monitor. *)
Definition listening_snapshot (w : World) : StatusSnapshot :=
  mkSnapshot info ("Listening on TCP port " ++ text_of (IPPort w)) InstanceStatus.Ok.

(** The two characters [toHex] produces for one character. *)
Definition hex_pair (c : ascii) : string :=
  slice_last2 ("0" ++ toString16 (N_of_ascii c)).

(** The value of a hexadecimal digit, and the character two digits stand
    for; used to show that [toHex] loses nothing. *)
Definition hex_value (c : ascii) : N :=
  let n := N_of_ascii c in
  if (n <? 58)%N then (n - 48)%N else (n - 87)%N.

Definition unhex_pair (s : string) : ascii :=
  match s with
  | String a (String b _) => ascii_of_N (16 * hex_value a + hex_value b)
  | _ => zero
  end.

(** ** Configuration fields *)

(** An entry of a dropdown. *)
Record Choice : Type := mkChoice {
  choice_id : Value;
  choice_label : string
}.

(** A field definition; a property the object literal does not give is
    [None]. *)
Record Field : Type := mkField {
  f_type : string;
  f_id : string;
  f_label : string;
  f_width : Z;
  f_value : option string;
  f_tooltip : option string;
  f_default : option Value;
  f_regex : option string;
  f_choices : option (list Choice);
  f_isVisible : option (Config -> bool)
}.

(** [v + suffix] for a non-negative integer [v]. *)
Definition number_label (v : Z) (suffix : string) : string :=
  NilZero.string_of_uint (N.to_uint (Z.to_N v)) ++ suffix.

(** [s.toLowerCase()] on ASCII letters. *)
Definition lower_ascii (c : ascii) : ascii :=
  let n := N_of_ascii c in
  if ((65 <=? n) && (n <=? 90))%N then ascii_of_N (n + 32) else c.

Definition toLowerCase (s : string) : string :=
  string_of_list_ascii (map lower_ascii (list_ascii_of_string s)).

(** The tables of [choices.js]. *)
Definition BAUD_RATES : list Choice :=
  map (fun v => mkChoice (VNum v) (number_label v " Baud"))
      [9600; 14400; 19200; 38400; 57600; 115200; 110; 300; 1200; 2400; 4800].

Definition BITS : list Choice :=
  map (fun v => mkChoice (VNum v) (number_label v " Bits")) [8; 7; 6; 5].

Definition PARITY : list Choice :=
  map (fun v => mkChoice (VStr (toLowerCase v)) v) ["None"; "Even"; "Odd"; "Mark"; "Space"].

Definition STOP : list Choice :=
  map (fun v => mkChoice (VNum v) (number_label v " Bits")) [1; 2].

(** [l[0].id]; reading [.id] of a missing entry throws. *)
Definition first_id (l : list Choice) : M Value :=
  match l with
  | c :: _ => ret (choice_id c)
  | [] => throw (TypeError_undefined "id")
  end.

(** The dropdown entry pushed for a discovered port. *)
Definition port_choice (port : PortDescriptor) : Choice :=
  mkChoice (VStr (path port)) (manufacturer port ++ " (" ++ path port ++ ")").

(** [port.id === sport] for a port entry. *)
Definition choice_is (sport : string) (c : Choice) : bool :=
  match choice_id c with
  | VStr s => (s =? sport)%string
  | _ => false
  end.

Definition info_field : Field :=
  mkField "static-text" "info" "Information" 12
          (Some "This is a helper module to provide TCP access to a serial port")
          None None None None None.

Definition info1_field : Field :=
  mkField "static-text" "info1" "Try again" 12
          (Some "No ports detected yet, which may take a few seconds.<br>Select the 'Connections' tab and wait for log entry 'No serial port configured' Then choose 'Edit' to return here. ")
          None None None None None.

Definition dropdown (id label : string) (width : Z) (default : Value)
           (choices : list Choice) : Field :=
  mkField "dropdown" id label width None None (Some default) None (Some choices) None.

Definition checkbox (id label : string) (default : bool) (width : Z) : Field :=
  mkField "checkbox" id label width None None (Some (VBool default)) None None None.

(** [(configValues) => configValues.response === true] *)
Definition response_is_set (configValues : Config) : bool := response configValues.

Section ConfigFields.

(** [Regex.PORT] of the host library. *)
Variable Regex_PORT : string.

(** The length of the property [ports] of the instance, which the class
    never assigns: [None] unless the base class provides one. *)
Variable this_ports_length : option nat.

Definition iport_field (port : Value) : Field :=
  mkField "textinput" "iport" "Listen Port" 8 None
          (Some "Enter the IP Port to listen for TCP connections on this computer")
          (Some port) (Some Regex_PORT) None None.

(** The block run when the configured port is not among the entries. *)
Definition select_first_found (cfg : Config) (ports : list Choice) : M unit :=
  when (selectfirstfound cfg)
       (log info ("Previously selected port (" ++ sport cfg ++ ") not found.") ;;
        match this_ports_length with
        | None => throw (TypeError_undefined "length")
        | Some n =>
            when (1 <? n)%nat
                 (match nth_error ports 1 with
                  | Some {| choice_id := VStr id |} =>
                      log info ("Selecting first found port: " ++ id) ;;
                      modify (set_config (Some (set_sport id cfg)))
                  | _ => throw (TypeError_undefined "id")
                  end)
        end).

Definition getConfigFields : M (list Field) :=
  port <- get IPPort ;;
  let fields := [info_field; iport_field port] in
  found <- get foundPorts ;;
  if (List.length found =? 0)%nat then
    ret (fields ++ [info1_field])%list
  else
    ports <- (if array_truthy found && negb (List.length found =? 0)%nat then
                let ports := map port_choice found in
                cfg <- deref config (TypeError_undefined "sport") ;;
                match find (choice_is (sport cfg)) ports with
                | Some _ => ret tt
                | None => select_first_found cfg ports
                end ;;
                ret ports
              else
                ret [mkChoice (VStr "none") "No serial ports detected"]) ;;
    sport_default <- first_id ports ;;
    baud_default <- first_id BAUD_RATES ;;
    bits_default <- first_id BITS ;;
    parity_default <- first_id PARITY ;;
    stop_default <- first_id STOP ;;
    ret (fields
         ++ [dropdown "sport" "Serial port" 12 sport_default ports;
             dropdown "baud" "Baud Rate" 6 baud_default BAUD_RATES;
             dropdown "bits" "Data Bits" 6 bits_default BITS;
             dropdown "parity" "Parity" 6 parity_default PARITY;
             dropdown "stop" "Stop Bits" 6 stop_default STOP]
         ++ [checkbox "selectfirstfound"
                      "Select First Found Port if Previously Configured Port is Not Found"
                      false 12]
         ++ [checkbox "response" "Response Expected" false 3;
             mkField "textinput" "maxresponse" "Max Response Time Allowed (in ms)" 3
                     None None (Some (VNum 1000)) None None (Some response_is_set);
             mkField "textinput" "errormessage"
                     "Message to emit to TCP Clients if no response received" 3
                     None None (Some (VStr "ERR:NORESPONSE")) None None
                     (Some response_is_set)])%list.

End ConfigFields.

(** The identifiers of the fields shown once ports have been found. *)
Definition serial_field_ids : list string :=
  ["info"; "iport"; "sport"; "baud"; "bits"; "parity"; "stop"; "selectfirstfound";
   "response"; "maxresponse"; "errormessage"].

(** ** The upgrade script *)

(** A property that may hold [null], be absent, or hold a string. *)
Inductive JsString : Type :=
| JsNull
| JsUndefined
| JsText (s : string).

(** A button action: its identifier and the [mute] option. *)
Record Action : Type := mkAction {
  action : string;
  options_mute : JsString
}.

(** The properties of a saved configuration the script reads or writes. *)
Record SavedConfig : Type := mkSavedConfig {
  host : JsString;
  old_host : JsString
}.

(** [upgradePass(actions)]: the flag it returns and the actions as it
    leaves them. *)
Fixpoint upgradePass (actions : list Action) : bool * list Action :=
  match actions with
  | [] => (false, [])
  | a :: rest =>
      let (changed, rest') := upgradePass rest in
      if ("mute_grp" =? action a)%string then
        match options_mute a with
        | JsNull => (true, mkAction (action a) (JsText "1") :: rest')
        | _ => (changed, a :: rest')
        end
      else (changed, a :: rest')
  end.

(** [upgradeFeedbacks(feedbacks)]: the loop body is empty. *)
Definition upgradeFeedbacks {F} (feedbacks : list F) : bool := false.

(** The upgrade script: the flag it returns, and the configuration and
    the two lists of actions as it leaves them. *)
Definition upgrade_script {F} (cfg : SavedConfig) (actions releaseActions : list Action)
           (feedbacks : list F) : bool * (SavedConfig * list Action * list Action) :=
  let changed := false in
  let (changed, cfg) :=
    match host cfg with
    | JsUndefined => (changed, cfg)
    | _ => (true, mkSavedConfig (host cfg) (host cfg))
    end in
  let (pass1, actions) := upgradePass actions in
  let changed := pass1 || changed in
  let (pass2, releaseActions) := upgradePass releaseActions in
  let changed := pass2 || changed in
  let changed := upgradeFeedbacks feedbacks || changed in
  (changed, (cfg, actions, releaseActions)).

(** The action is one the pass rewrites. *)
Definition mute_unset (a : Action) : bool :=
  ("mute_grp" =? action a)%string
  && match options_mute a with
     | JsNull => true
     | _ => false
     end.

(** ** Further points of the concrete session *)

(** The configuration has just been applied: the first enumeration is in
    flight. *)
Definition world_configured : World :=
  run status_names constructed [(0, EvInit sample_config)].

(** Events that arrive while that enumeration is in flight. *)
Definition turns_during_scan : list (Z * Event) :=
  [(5000, EvTimer 0%nat); (5100, EvSerialError (mkErrorObj "Access denied" false));
   (5200, EvNextSPort)].

(** A socket the server never accepted. *)
Definition stranger : Socket := mkSocket 9 "10.0.0.9" 4009.

(** The configured port is not among the discovered ones and the
    select-first-found option is on. *)
Definition config_port_missing : Config :=
  mkConfig "9000" "COM7" 9600 8 1 "none" true false "1000" "ERR:NORESPONSE".

Definition world_port_missing : World :=
  set_config (Some config_port_missing) world_discovered.

(** The tick after discovery has created the serial port object, which
    has not opened yet. *)
Definition world_opening : World :=
  run status_names world_discovered [(5000, EvTimer 0%nat)].

(** The number of calls of the log that satisfy [p]. *)
Fixpoint count_calls (p : Effect -> bool) (tr : list Effect) : nat :=
  match tr with
  | [] => O
  | e :: tr' => ((if p e then 1 else 0) + count_calls p tr')%nat
  end.

Definition is_server_close (e : Effect) : bool :=
  match e with
  | ServerClose => true
  | _ => false
  end.

Definition is_serial_open (e : Effect) : bool :=
  match e with
  | SerialOpen => true
  | _ => false
  end.

(** A call that closes the serial port or removes its listeners. *)
Definition is_serial_release (e : Effect) : bool :=
  match e with
  | SerialClose | SerialRemoveAllListeners => true
  | _ => false
  end.

(** The snapshot of the fourth rule of the status monitor. *)
Definition no_ports_snapshot : StatusSnapshot :=
  mkSnapshot error "No serial ports detected" InstanceStatus.ConnectionFailure.

(** A call that constructs a serial port object or is made on one. *)
Definition is_serial_call (e : Effect) : bool :=
  match e with
  | SerialNew _ | SerialOn _ | SerialOpen | SerialClose
  | SerialRemoveAllListeners | SerialWrite _ => true
  | _ => false
  end.

(** The options [init_serial] builds in the state [w] under the
    configuration [cfg]. *)
Definition port_options (w : World) (cfg : Config) : PortOptions :=
  mkPortOptions (sPortPath w) false (parseInt (baud cfg)) (parseInt (bits cfg))
                (parseInt (stop cfg)) (parity cfg).

(** The enumeration has answered and the startup delay has elapsed while
    the port still has not opened: the tick at 10 s reports that the
    module is connecting. *)
Definition world_connecting : World :=
  run status_names world_opening
      [(5100, EvListResolved [com5]); (10000, EvTimer 0%nat);
       (10100, EvListResolved [com5])].

(** The error with which the serial library refuses a port. *)
Definition access_denied : ErrorObj := mkErrorObj "Access denied" false.

(** The snapshot the second rule of the status monitor assigns for it. *)
Definition access_denied_snapshot : StatusSnapshot :=
  mkSnapshot error "Error: Access denied" InstanceStatus.Error.

(** The configuration is applied again 100 ms after the client left. *)
Definition world_reconfigured : World :=
  run status_names world_client_left [(7200, EvInit sample_config)].

(** * Proofs *)

Lemma serial_written_app (a b : list Effect) :
  serial_written (a ++ b) = (serial_written a ++ serial_written b)%list.
Proof.
  induction a as [|e a IH]; [reflexivity|].
  destruct e; simpl; rewrite IH; reflexivity.
Qed.

Lemma socket_written_app (a b : list Effect) :
  socket_written (a ++ b) = (socket_written a ++ socket_written b)%list.
Proof.
  induction a as [|e a IH]; [reflexivity|].
  destruct e; simpl; rewrite IH; reflexivity.
Qed.

Lemma list_requests_app (a b : list Effect) :
  list_requests (a ++ b) = (list_requests a + list_requests b)%nat.
Proof.
  induction a as [|e a IH]; [reflexivity|].
  destruct e; simpl; rewrite IH; reflexivity.
Qed.

Lemma count_calls_app (p : Effect -> bool) (a b : list Effect) :
  count_calls p (a ++ b) = (count_calls p a + count_calls p b)%nat.
Proof. induction a as [|e a IH]; simpl; [|rewrite IH; lia]; reflexivity. Qed.

(** ** Equations of the monad *)

Lemma bind_ret {A B} (a : A) (f : A -> M B) (w : World) :
  bind (ret a) f w = f a w.
Proof. reflexivity. Qed.

Lemma bind_get {A B} (g : World -> A) (f : A -> M B) (w : World) :
  bind (get g) f w = f (g w) w.
Proof. reflexivity. Qed.

Lemma bind_modify {B} (g : World -> World) (f : unit -> M B) (w : World) :
  bind (modify g) f w = f tt (g w).
Proof. reflexivity. Qed.

Lemma bind_emit {B} (e : Effect) (f : unit -> M B) (w : World) :
  bind (emit e) f w = f tt (set_trace (trace w ++ [e]) w).
Proof. reflexivity. Qed.

Lemma bind_throw {A B} (e : string) (f : A -> M B) (w : World) :
  bind (throw e) f w = Thrown e w.
Proof. reflexivity. Qed.

Lemma bind_bind {A B C} (m : M A) (f : A -> M B) (g : B -> M C) (w : World) :
  bind (bind m f) g w = bind m (fun a => bind (f a) g) w.
Proof. unfold bind. destruct (m w); reflexivity. Qed.

Lemma bind_deref {A B} (field : World -> option A) (e : string) (f : A -> M B)
      (w : World) (a : A) :
  field w = Some a -> bind (deref field e) f w = f a w.
Proof. intros H. unfold deref, bind, get. rewrite H. reflexivity. Qed.

Lemma bind_deref_none {A B} (field : World -> option A) (e : string) (f : A -> M B)
      (w : World) :
  field w = None -> bind (deref field e) f w = Thrown e w.
Proof. intros H. unfold deref, bind, get. rewrite H. reflexivity. Qed.

Lemma bind_clearInterval {B} (x : option Handle) (f : unit -> M B) (w : World) :
  bind (clearInterval x) f w
  = f tt (match x with
          | Some h => set_timers (cancel h (timers w)) w
          | None => w
          end).
Proof. destruct x; reflexivity. Qed.

Lemma run_clearInterval (x : option Handle) (w : World) :
  clearInterval x w
  = Done tt (match x with
             | Some h => set_timers (cancel h (timers w)) w
             | None => w
             end).
Proof. destruct x; reflexivity. Qed.

Lemma run_forEach_emit {A} (f : A -> Effect) (l : list A) (w : World) :
  forEach (fun x => emit (f x)) l w
  = Done tt (set_trace (trace w ++ map f l) w).
Proof.
  revert w; induction l as [|x l IH]; intros w.
  - simpl. unfold ret. rewrite app_nil_r. destruct w; reflexivity.
  - simpl forEach. rewrite bind_emit, IH. simpl.
    rewrite <- app_assoc. reflexivity.
Qed.

Lemma bind_forEach_emit {A B} (f : A -> Effect) (l : list A) (k : unit -> M B)
      (w : World) :
  bind (forEach (fun x => emit (f x)) l) k w
  = k tt (set_trace (trace w ++ map f l) w).
Proof. unfold bind at 1. rewrite run_forEach_emit. reflexivity. Qed.

Lemma bind_forEach_emit2 {A B} (f g : A -> Effect) (l : list A) (k : unit -> M B)
      (w : World) :
  bind (forEach (fun x => bind (emit (f x)) (fun _ => emit (g x))) l) k w
  = k tt (set_trace (trace w ++ flat_map (fun x => [f x; g x]) l) w).
Proof.
  unfold bind at 1.
  assert (E : forall v, forEach (fun x => bind (emit (f x)) (fun _ => emit (g x))) l v
                        = Done tt (set_trace (trace v ++ flat_map (fun x => [f x; g x]) l) v)).
  { induction l as [|x l IH]; intros v.
    - simpl. unfold ret. rewrite app_nil_r. destruct v; reflexivity.
    - simpl forEach. rewrite bind_bind, bind_emit. cbv beta. rewrite bind_emit.
      cbv beta. rewrite IH. simpl. rewrite <- !app_assoc. reflexivity. }
  rewrite E. reflexivity.
Qed.

(** Reduces the projections of updated states. *)
Ltac fields :=
  cbn [LOG_DELAY foundPorts tSockets sPortPath isOpen IPPort portScan tServer sPort config isListening startedAt scanning SERIAL_INTERVAL lastStatus timers next_handle clock trace emitted
       set_LOG_DELAY set_foundPorts set_tSockets set_sPortPath set_isOpen set_IPPort set_portScan set_tServer set_sPort set_config set_isListening set_startedAt set_scanning set_SERIAL_INTERVAL set_lastStatus set_timers set_next_handle set_clock set_trace set_emitted
       when isSome final connections sp_isOpen].

(** One step of symbolic execution of a handler applied to a state. *)
Ltac mstep :=
  first [ rewrite bind_bind
        | rewrite bind_ret
        | rewrite bind_get
        | rewrite bind_modify
        | rewrite bind_emit
        | rewrite bind_throw
        | rewrite bind_clearInterval
        | rewrite bind_forEach_emit
        | rewrite bind_forEach_emit2 ];
  cbv beta.

Ltac msteps := unfold log, updateStatus, Date_now; repeat mstep.

Section RelayFacts.

Variable status_repr : InstanceStatus.t -> string.

(** ** Client to serial *)

(** What the ['data'] callback of a client socket does, whatever follows
    the write to the serial port. *)
Lemma on_socket_data_final (data : Buffer) (w : World) (port : SerialPortObj) :
  sPort w = Some port ->
  let w' := final (on_socket_data data w) in
  trace w' = (trace w ++ [HostLog debug ("TCP: " ++ toHex (latin1 data ++ " "));
                          SerialWrite data])%list
  /\ sPort w' = sPort w.
Proof.
  intros Hp. unfold on_socket_data, log, emit, modify, bind, deref, get, when.
  cbn. rewrite Hp. cbn.
  destruct (config w) as [cfg|]; cbn.
  - destruct (response cfg); cbn; rewrite <- app_assoc; auto.
  - rewrite <- app_assoc; auto.
Qed.

(** C1. While the serial port object exists, every buffer received from a
    client is written to the serial port and to nothing else: over any
    sequence of client data events the serial port is written exactly those
    buffers, in the order received, and no client socket is written
    anything. *)
Theorem client_data_reaches_only_serial :
  forall (sends : list (Z * Socket * Buffer)) (w : World) (port : SerialPortObj),
    sPort w = Some port ->
    let w' := run status_repr w (client_turns sends) in
    serial_written (trace w')
    = (serial_written (trace w) ++ map snd sends)%list
    /\ socket_written (trace w') = socket_written (trace w).
Proof.
  induction sends as [|[[now sock] data] sends IH]; intros w port Hp.
  - simpl. rewrite app_nil_r. auto.
  - simpl client_turns. unfold run. simpl fold_left.
    set (w1 := step status_repr w (now, EvSocketData sock data)).
    assert (H1 : trace w1 = (trace w ++ [HostLog debug ("TCP: " ++ toHex (latin1 data ++ " "));
                                         SerialWrite data])%list
                 /\ sPort w1 = Some port).
    { unfold w1, step. simpl handle.
      destruct (@on_socket_data_final data (set_clock now w) port Hp) as [Ht Hs].
      rewrite Hs. split; [exact Ht | exact Hp]. }
    destruct H1 as [Ht Hs].
    destruct (IH w1 port Hs) as [IH1 IH2]. unfold run in IH1, IH2.
    rewrite IH1, IH2, Ht, serial_written_app, socket_written_app. simpl.
    rewrite <- app_assoc, app_nil_r. auto.
Qed.

(** ** Serial to clients *)

Lemma socket_written_writes (socks : list Socket) (p : Payload) :
  socket_written (map (fun s => SockWrite s p) socks) = map (fun s => (s, p)) socks.
Proof. induction socks as [|s socks IH]; simpl; [|rewrite IH]; reflexivity. Qed.

Lemma serial_written_writes (socks : list Socket) (p : Payload) :
  serial_written (map (fun s => SockWrite s p) socks) = [].
Proof. induction socks as [|s socks IH]; simpl; auto. Qed.

(** What the ['data'] callback of the serial port does. *)
Lemma on_serial_data_done (data : Buffer) (w : World) (socks : list Socket) :
  tSockets w = Some socks ->
  exists w',
    on_serial_data data w = Done tt w'
    /\ tSockets w' = Some socks
    /\ socket_written (trace w') = (socket_written (trace w) ++ broadcast socks data)%list
    /\ serial_written (trace w') = serial_written (trace w)
    /\ timers w' = match SERIAL_INTERVAL w with
                   | Some h => cancel h (timers w)
                   | None => timers w
                   end.
Proof.
  intros Hs. unfold on_serial_data.
  rewrite (bind_deref _ _ _ _ Hs).
  destruct socks as [|s0 socks'].
  - cbn [List.length Nat.ltb Nat.leb when]. msteps.
    rewrite run_clearInterval. eexists. split; [reflexivity|]. cbn.
    destruct (SERIAL_INTERVAL w); cbn; rewrite ?app_nil_r; auto.
  - cbn [List.length Nat.ltb Nat.leb when]. msteps.
    rewrite run_clearInterval. eexists. split; [reflexivity|]. cbn -[toHex].
    destruct (SERIAL_INTERVAL w); cbn -[toHex];
      rewrite <- !app_assoc, !socket_written_app, !serial_written_app; cbn -[toHex];
      rewrite socket_written_writes, serial_written_writes, ?app_nil_r; auto.
Qed.

(** C2. With [socks] the active clients, over any sequence of data events
    of the serial port every client of [socks] is written each buffer
    unchanged, event after event in the order received and, within one
    event, client after client; nothing is written back to the serial
    port and the set of clients stays as it was. *)
Theorem serial_data_reaches_every_client :
  forall (reads : list (Z * Buffer)) (w : World) (socks : list Socket),
    tSockets w = Some socks ->
    let w' := run status_repr w (serial_turns reads) in
    socket_written (trace w')
    = (socket_written (trace w) ++ flat_map (fun t => broadcast socks (snd t)) reads)%list
    /\ serial_written (trace w') = serial_written (trace w)
    /\ tSockets w' = Some socks.
Proof.
  induction reads as [|[now data] reads IH]; intros w socks Hs.
  - simpl. rewrite app_nil_r. auto.
  - simpl serial_turns. unfold run. simpl fold_left.
    set (w1 := step status_repr w (now, EvSerialData data)).
    destruct (@on_serial_data_done data (set_clock now w) socks Hs)
      as (w2 & Hrun & Hs2 & Hsock & Hser & _).
    assert (E : w1 = w2) by (unfold w1, step; simpl handle; rewrite Hrun; reflexivity).
    destruct (IH w1 socks) as (IH1 & IH2 & IH3); [rewrite E; exact Hs2|].
    unfold run in IH1, IH2, IH3. rewrite IH1, IH2, IH3, E, Hsock, Hser. cbn.
    rewrite <- app_assoc. auto.
Qed.

(** ** The status monitor, call by call *)

Lemma doUpdateStatus_run (err : option ErrorObj) (w : World) :
  doUpdateStatus status_repr err w
  = Done tt
      match select_status err w with
      | Some sn =>
          if InstanceStatus.defined (statusCode sn)
             && differs (fingerprint status_repr sn) (lastStatus w)
          then with_emission (fingerprint status_repr sn) sn w
          else w
      | None => w
      end.
Proof.
  unfold doUpdateStatus. rewrite bind_get. cbv beta. rewrite bind_get. cbv beta.
  destruct (select_status err w) as [sn|]; [|reflexivity].
  destruct (InstanceStatus.defined (statusCode sn)
            && differs (fingerprint status_repr sn) (lastStatus w)); [|reflexivity].
  unfold when. msteps. unfold modify, with_emission. cbn.
  rewrite <- app_assoc. reflexivity.
Qed.

Lemma bind_doUpdateStatus {B} (err : option ErrorObj) (k : unit -> M B) (w : World) :
  bind (doUpdateStatus status_repr err) k w
  = k tt (final (doUpdateStatus status_repr err w)).
Proof. unfold bind at 1. rewrite doUpdateStatus_run. reflexivity. Qed.

(** [doUpdateStatus] touches the call log, [lastStatus] and the history,
    nothing else. *)
Lemma doUpdateStatus_frame (err : option ErrorObj) (w : World) :
  let w' := final (doUpdateStatus status_repr err w) in
  tSockets w' = tSockets w /\ tServer w' = tServer w /\ sPort w' = sPort w
  /\ isListening w' = isListening w /\ timers w' = timers w
  /\ foundPorts w' = foundPorts w /\ scanning w' = scanning w
  /\ config w' = config w /\ SERIAL_INTERVAL w' = SERIAL_INTERVAL w.
Proof.
  rewrite doUpdateStatus_run. cbn [final].
  destruct (select_status err w) as [sn|]; [|cbn; tauto].
  destruct (_ && _); cbn; tauto.
Qed.

(** ** Response timeout *)


(** ** Serial close *)

(** C9. When the serial port closes with a disconnect error, the handler
    (after the status update it starts with) ends every socket of the
    active set, closes the server and clears [isListening]; when it closes
    with an error that is not a disconnect, or with [null] as the library
    passes for a requested close, no socket is ended, the server is not
    closed and [isListening] is left alone. *)
Theorem hardware_disconnect_cascades :
  forall (w : World) (e : ErrorObj) (socks : list Socket) (srv : Server),
    disconnected e = true ->
    tSockets w = Some socks ->
    tServer w = Some srv ->
    (exists w',
        on_serial_close status_repr (Some e) w = Done tt w'
        /\ trace w' = (trace (final (doUpdateStatus status_repr (Some e) w))
                       ++ map SockEnd socks ++ [ServerClose])%list
        /\ isListening w' = false)
    /\ (forall err : option ErrorObj,
           match err with
           | Some e' => disconnected e' = false
           | None => True
           end ->
           let w'' := final (on_serial_close status_repr err w) in
           trace w'' = trace (final (doUpdateStatus status_repr err w))
           /\ isListening w'' = isListening w).
Proof.
  intros w e socks srv Hd Hs Hv. split.
  - unfold on_serial_close. rewrite bind_doUpdateStatus. rewrite Hd. unfold when.
    destruct (doUpdateStatus_frame (Some e) w) as (Fs & Fv & _).
    set (w1 := final (doUpdateStatus status_repr (Some e) w)) in *.
    rewrite (bind_deref tSockets _ _ _ (a := socks)) by (rewrite Fs; exact Hs).
    msteps.
    rewrite (bind_deref tServer _ _ _ (a := srv)) by (cbn; rewrite Fv; exact Hv).
    msteps. eexists. split; [reflexivity|]. cbn.
    rewrite <- app_assoc. auto.
  - intros err Herr. unfold on_serial_close. rewrite bind_doUpdateStatus.
    destruct (doUpdateStatus_frame err w) as (_ & _ & _ & Fl & _).
    destruct err as [e'|].
    + rewrite Herr. cbn. auto.
    + cbn. auto.
Qed.

(** ** Client close *)

Lemma socket_eqb_refl (s : Socket) : socket_eqb s s = true.
Proof. unfold socket_eqb. apply Nat.eqb_refl. Qed.

(** C10. When the only socket of the active set closes, the handler
    empties the set and sets [isListening] to false; it makes no call on
    the server, which stays registered, and whatever the error argument and
    the time, the next status selection does not yield the listening
    status. *)
Theorem last_client_close_clears_listening :
  forall (w : World) (socket : Socket),
    tSockets w = Some [socket] ->
    exists w',
      handle status_repr (EvSocketClose socket) w = Done tt w'
      /\ tSockets w' = Some []
      /\ isListening w' = false
      /\ trace w' = (trace w ++ [HostSetVariableValues "Not connected"])%list
      /\ isSome (tServer w') = isSome (tServer w)
      /\ (forall (now : Z) (err : option ErrorObj) (sn : StatusSnapshot),
             select_status err (set_clock now w') = Some sn ->
             statusCode sn <> InstanceStatus.Ok).
Proof.
  intros w socket Hs. unfold handle, on_socket_close.
  rewrite (bind_deref tSockets _ _ _ (a := [socket])) by exact Hs.
  cbn [indexOf]. rewrite socket_eqb_refl.
  change (splice1 0 [socket]) with (@nil Socket).
  msteps. unfold updateVariables.
  rewrite (bind_deref tSockets _ _ _ (a := [])) by reflexivity.
  eexists. split; [reflexivity|]. cbn.
  repeat split; auto.
  intros now err sn. unfold select_status. cbn.
  destruct err as [e|];
    repeat match goal with
           | |- (if ?b then _ else _) = _ -> _ => destruct b
           | |- match ?b with _ => _ end = _ -> _ => destruct b
           end;
    intros H; inversion H; subst; cbn; discriminate.
Qed.

(** ** Teardown *)

Lemma lookup_cancel_same (h : Handle) (ts : list (Handle * Timer)) :
  lookup_timer h (cancel h ts) = None.
Proof.
  induction ts as [|[h' t] ts IH]; [reflexivity|].
  simpl. destruct (Nat.eqb h' h) eqn:E; simpl; [exact IH|].
  rewrite E. exact IH.
Qed.

Lemma lookup_cancel_none (h h' : Handle) (ts : list (Handle * Timer)) :
  lookup_timer h ts = None -> lookup_timer h (cancel h' ts) = None.
Proof.
  induction ts as [|[k t] ts IH]; [reflexivity|].
  simpl. destruct (Nat.eqb k h) eqn:E; [discriminate|].
  intros H. destruct (Nat.eqb k h'); simpl; [auto|]. rewrite E. auto.
Qed.

(** With nothing left to release, [clearAll] changes nothing. *)
Lemma clearAll_fixed (w : World) :
  portScan w = None -> tSockets w = None -> tServer w = None -> sPort w = None ->
  clearAll w = Done tt w.
Proof.
  intros H1 H2 H3 H4. unfold clearAll.
  rewrite bind_get, H1. cbn [isSome when]. msteps.
  rewrite H2. msteps. rewrite H3. msteps. rewrite H4. reflexivity.
Qed.

Lemma clearAll_run (w : World) :
  exists w',
    clearAll w = Done tt w'
    /\ portScan w' = None /\ tSockets w' = None /\ tServer w' = None /\ sPort w' = None
    /\ timers w' = match portScan w with
                   | Some h => cancel h (timers w)
                   | None => timers w
                   end
    /\ trace w' = (trace w ++ teardown_calls w)%list
    /\ SERIAL_INTERVAL w' = SERIAL_INTERVAL w
    /\ next_handle w' = next_handle w.
Proof.
  unfold clearAll, teardown_calls.
  destruct (portScan w) as [h|] eqn:H1;
    destruct (tSockets w) as [socks|] eqn:H2;
    destruct (tServer w) as [[n]|] eqn:H3;
    destruct (sPort w) as [[o]|] eqn:H4;
    repeat first [ mstep
                 | progress fields
                 | rewrite H1 | rewrite H2 | rewrite H3 | rewrite H4
                 | match goal with
                   | |- context [(0 <? ?k)%nat] => destruct (0 <? k)%nat
                   end
                 | match goal with
                   | |- context [if ?b then _ else _] => is_var b; destruct b
                   end ];
    unfold emit, modify, ret; fields;
    eexists; (split; [reflexivity|]); cbn;
    rewrite <- ?app_assoc, ?app_nil_r; cbn;
    repeat split; rewrite ?H1, ?H2, ?H3, ?H4; reflexivity.
Qed.

Lemma lookup_cancel_other (h h' : Handle) (ts : list (Handle * Timer)) :
  h <> h' -> lookup_timer h (cancel h' ts) = lookup_timer h ts.
Proof.
  intros Hn. induction ts as [|[k t] ts IH]; [reflexivity|].
  simpl. destruct (Nat.eqb_spec k h') as [E1|E1]; simpl.
  - destruct (Nat.eqb_spec k h) as [E2|E2]; [congruence|exact IH].
  - destruct (Nat.eqb k h); [reflexivity|exact IH].
Qed.

(** [clearAll] cancels no timer but the one held in [portScan]. *)
Lemma clearAll_keeps_other_timers (w : World) (h : Handle) :
  portScan w <> Some h ->
  lookup_timer h (timers (final (clearAll w))) = lookup_timer h (timers w).
Proof.
  intros Hn. destruct (clearAll_run w) as (w' & Hrun & _ & _ & _ & _ & Ht & _).
  rewrite Hrun. cbn [final]. rewrite Ht.
  destruct (portScan w) as [h'|]; [|reflexivity].
  apply lookup_cancel_other. congruence.
Qed.

(** [clearAll] does not close a server whose [connections] is not above
    0. *)
Lemma clearAll_leaves_server_open (w : World) (srv : Server) :
  tServer w = Some srv ->
  connections srv = 0%nat ->
  count_calls is_server_close (trace (final (clearAll w)))
  = count_calls is_server_close (trace w).
Proof.
  intros Hv Hc. destruct (clearAll_run w) as (w' & Hrun & _ & _ & _ & _ & _ & Htr & _).
  rewrite Hrun. cbn [final]. rewrite Htr, count_calls_app.
  unfold teardown_calls. rewrite Hv, Hc, !count_calls_app.
  assert (Z1 : forall socks : list Socket,
             count_calls is_server_close
               (flat_map (fun s => [SockEnd s; SockRemoveAllListeners s]) socks) = O)
    by (induction socks as [|s l IH]; [reflexivity|exact IH]).
  destruct (tSockets w) as [socks|]; rewrite ?Z1;
    destruct (sPort w) as [[[|]]|]; simpl; lia.
Qed.

(** X25. [clearAll] always runs to the end.  It cancels the discovery
    timer, ends every client socket and removes its listeners, removes the
    listeners of the server and of the serial port, closes the server only
    when its [connections] property is above 0 and the serial port when it
    is open, and forgets the timer, the clients, the server and the serial
    port.  Run again any number of times it changes nothing.  [destroy]
    runs it, then cancels the timer held in [SERIAL_INTERVAL] and reports
    the disabled status. *)
Theorem teardown_releases_and_is_idempotent :
  forall w : World,
  exists w',
    clearAll w = Done tt w'
    /\ (forall h, portScan w = Some h -> lookup_timer h (timers w') = None)
    /\ portScan w' = None /\ tSockets w' = None /\ tServer w' = None /\ sPort w' = None
    /\ trace w' = (trace w ++ teardown_calls w)%list
    /\ (forall n : nat, Nat.iter n (fun v => final (clearAll v)) w' = w')
    /\ exists w'',
        destroy w = Done tt w''
        /\ (forall h, SERIAL_INTERVAL w = Some h -> lookup_timer h (timers w'') = None)
        /\ (forall h, portScan w = Some h -> lookup_timer h (timers w'') = None)
        /\ trace w'' = (trace w' ++ [HostUpdateStatus InstanceStatus.Disconnected (Some "Disabled");
                                     HostLog debug "Destroyed"])%list.
Proof.
  intros w.
  destruct (clearAll_run w) as (w' & Hrun & Hp & Hs & Hv & Hsp & Ht & Htr & Hsi & _).
  assert (Hscan : forall h, portScan w = Some h -> lookup_timer h (timers w') = None).
  { intros h Hh. rewrite Ht, Hh. apply lookup_cancel_same. }
  exists w'. repeat (split; [assumption|]). split.
  - induction n as [|n IH]; [reflexivity|].
    simpl. rewrite IH, (@clearAll_fixed w' Hp Hs Hv Hsp). reflexivity.
  - unfold destroy. unfold bind at 1. rewrite Hrun. msteps.
    unfold emit, modify. eexists. split; [reflexivity|]. fields.
    rewrite Hsi. split; [|split].
    + intros h Hh. rewrite Hh. fields. apply lookup_cancel_same.
    + intros h Hh. destruct (SERIAL_INTERVAL w); fields; auto.
      apply lookup_cancel_none; auto.
    + destruct (SERIAL_INTERVAL w); fields; rewrite <- app_assoc; reflexivity.
Qed.

(** ** Port discovery *)

Lemma final_bind {A B} (m : M A) (k : A -> M B) (w : World) :
  final (bind m k w)
  = match m w with
    | Done a w' => final (k a w')
    | Thrown _ w' => w'
    end.
Proof. unfold bind. destruct (m w); reflexivity. Qed.

Lemma doUpdateStatus_requests (err : option ErrorObj) (w : World) :
  list_requests (trace (final (doUpdateStatus status_repr err w)))
  = list_requests (trace w).
Proof.
  rewrite doUpdateStatus_run. cbn [final].
  destruct (select_status err w) as [sn|]; [|reflexivity].
  destruct (_ && _); [|reflexivity].
  unfold with_emission. fields. rewrite list_requests_app. simpl. lia.
Qed.

Lemma init_serial_requests (w : World) :
  list_requests (trace (final (init_serial status_repr w))) = list_requests (trace w).
Proof.
  unfold init_serial. rewrite bind_get. cbv beta.
  destruct (_ || _); [reflexivity|].
  destruct (config w) as [cfg|] eqn:Hc.
  - rewrite (bind_deref config _ _ _ (a := cfg)) by exact Hc.
    cbv zeta. msteps. rewrite doUpdateStatus_requests. fields.
    rewrite !list_requests_app. simpl. lia.
  - rewrite bind_deref_none by exact Hc. reflexivity.
Qed.

(** A scan made while no serial port is open and no enumeration is in
    flight asks for exactly one enumeration. *)
Lemma scanForPorts_requests (w : World) :
  scanning w = false ->
  match sPort w with
  | Some port => sp_isOpen port = false
  | None => True
  end ->
  list_requests (trace (final (scanForPorts status_repr w))) = S (list_requests (trace w)).
Proof.
  intros Hsc Hp. unfold scanForPorts. msteps. cbv zeta.
  assert (E : match sPort w with
              | Some port => negb (sp_isOpen port)
              | None => true
              end = true)
    by (destruct (sPort w) as [[o]|]; [cbn in Hp; rewrite Hp|]; reflexivity).
  rewrite E. cbn [when]. rewrite bind_bind, bind_doUpdateStatus.
  destruct (doUpdateStatus_frame None w) as (_ & _ & _ & _ & _ & _ & Fsc & _).
  pose proof (doUpdateStatus_requests None w) as Hreq.
  set (w1 := final (doUpdateStatus status_repr None w)) in *.
  unfold findPorts. msteps. rewrite Fsc, Hsc. msteps.
  match goal with
  | |- context [when ?b _] => destruct b
  end; cbn [when].
  - rewrite init_serial_requests. fields. rewrite list_requests_app. simpl. lia.
  - cbn. rewrite list_requests_app. simpl. lia.
Qed.

(** *** The discovery timer *)

Lemma same_schedule_refl (w : World) : same_schedule w w.
Proof. repeat split. Qed.

Lemma same_schedule_trans (w1 w2 w3 : World) :
  same_schedule w1 w2 -> same_schedule w2 w3 -> same_schedule w1 w3.
Proof.
  intros (A1 & A2 & A3) (B1 & B2 & B3). repeat split; congruence.
Qed.

Lemma doUpdateStatus_schedule (err : option ErrorObj) (w : World) :
  same_schedule w (final (doUpdateStatus status_repr err w)).
Proof.
  rewrite doUpdateStatus_run. cbn [final].
  destruct (select_status err w) as [sn|]; [|apply same_schedule_refl].
  destruct (_ && _); [|apply same_schedule_refl].
  repeat split.
Qed.

Lemma init_serial_schedule (w : World) :
  same_schedule w (final (init_serial status_repr w)).
Proof.
  unfold init_serial. rewrite bind_get. cbv beta.
  destruct (_ || _); [apply same_schedule_refl|].
  destruct (config w) as [cfg|] eqn:Hc.
  - rewrite (bind_deref config _ _ _ (a := cfg)) by exact Hc.
    cbv zeta. msteps.
    eapply same_schedule_trans; [|apply doUpdateStatus_schedule]. repeat split.
  - rewrite bind_deref_none by exact Hc. apply same_schedule_refl.
Qed.

Lemma scanForPorts_schedule (w : World) :
  same_schedule w (final (scanForPorts status_repr w)).
Proof.
  unfold scanForPorts. msteps. cbv zeta.
  match goal with
  | |- context [when ?b (bind _ _)] => destruct b
  end; cbn [when].
  - rewrite bind_bind, bind_doUpdateStatus.
    pose proof (doUpdateStatus_schedule None w) as H1.
    set (w1 := final (doUpdateStatus status_repr None w)) in *.
    unfold findPorts. msteps.
    destruct (scanning w1); msteps;
      match goal with
      | |- context [when ?b _] => destruct b
      end; cbn [when];
      try (eapply same_schedule_trans; [|apply init_serial_schedule]);
      try (eapply same_schedule_trans; [exact H1|]); repeat split.
  - msteps.
    match goal with
    | |- context [when ?b _] => destruct b
    end; cbn [when]; [apply init_serial_schedule|apply same_schedule_refl].
Qed.

(** Applying a configuration schedules the scan callback every 5000 ms
    and keeps the handle in [portScan]. *)
Lemma applyConfig_schedule (cfg : Config) (w w' : World) :
  final (applyConfig status_repr cfg w) = w' ->
  portScan w' = Some (next_handle w)
  /\ In (next_handle w, ScanInterval 5000) (timers w').
Proof.
  unfold applyConfig. msteps.
  destruct (clearAll_run (set_config (Some cfg) w))
    as (w1 & Hrun & _ & _ & _ & _ & _ & _ & _ & Hn).
  change (next_handle (set_config (Some cfg) w)) with (next_handle w) in Hn.
  unfold bind at 1. rewrite Hrun. msteps.
  unfold setInterval, fresh_handle. msteps. fields.
  match goal with
  | |- context [bind (scanForPorts status_repr) ?k ?v] =>
      pose proof (scanForPorts_schedule v) as Hs;
      rewrite (final_bind (scanForPorts status_repr) k v);
      destruct (scanForPorts status_repr v) as [[] w2|e w2]
  end; cbn [final] in Hs; destruct Hs as (Ht & Hp & _);
    revert Ht Hp; fields; rewrite Hn; intros Ht Hp.
  - unfold init_actions, init_variables, updateVariables. msteps.
    destruct (tSockets w2) as [socks|] eqn:Hs2.
    + rewrite (bind_deref tSockets _ _ _ (a := socks)) by exact Hs2.
      cbv zeta. unfold emit, modify. fields. intros <-. fields. rewrite Ht, Hp.
      split; [reflexivity|]. apply in_or_app. right. left. reflexivity.
    + rewrite bind_deref_none by exact Hs2. fields. intros <-. fields.
      rewrite Ht, Hp.
      split; [reflexivity|]. apply in_or_app. right. left. reflexivity.
  - intros <-. rewrite Ht, Hp.
    split; [reflexivity|]. apply in_or_app. right. left. reflexivity.
Qed.

(** C4 (amended). A scan empties the discovered set when it starts.  If
    the enumeration then fails, the set stays empty, the failure is logged
    at debug level and nothing else is called, the status monitor emits
    nothing and keeps its record, and the scanning flag is released: the
    next run of the scan callback made while no serial port is open asks
    for the enumeration again.  That callback is what the interval timer
    set by [applyConfig], of 5000 ms, runs each time it fires. *)
Theorem discovery_failure_is_logged_and_retried :
  forall (w : World) (err : string),
    scanning w = false ->
    let w1 := final (findPorts w) in
    let w2 := final (on_list_rejected err w1) in
    foundPorts w2 = []
    /\ trace w2 = (trace w ++ [SerialPortList; HostLog debug ("SerialPort.list: " ++ err)])%list
    /\ lastStatus w2 = lastStatus w
    /\ emitted w2 = emitted w
    /\ scanning w2 = false
    /\ (match sPort w with
        | Some port => sp_isOpen port = false
        | None => True
        end ->
        list_requests (trace (final (scanForPorts status_repr w2)))
        = S (list_requests (trace w2)))
    /\ (forall (cfg : Config) (v : World),
           let v' := final (applyConfig status_repr cfg v) in
           portScan v' = Some (next_handle v)
           /\ In (next_handle v, ScanInterval 5000) (timers v'))
    /\ (forall (h : Handle) (ms : Z) (v : World),
           lookup_timer h (timers v) = Some (ScanInterval ms) ->
           handle status_repr (EvTimer h) v = scanForPorts status_repr v).
Proof.
  intros w err Hsc. unfold findPorts. rewrite bind_get, Hsc. msteps.
  unfold emit, modify at 1. cbn [final]. unfold on_list_rejected. msteps.
  unfold modify. cbn [final]. fields. rewrite <- app_assoc.
  repeat (split; [reflexivity|]). split; [|split].
  - intros Hp. apply scanForPorts_requests; [reflexivity|exact Hp].
  - intros cfg v. apply applyConfig_schedule with (cfg := cfg). reflexivity.
  - intros h ms v Hl. unfold handle. rewrite bind_get. cbv beta.
    rewrite Hl. reflexivity.
Qed.

(** ** Startup delay *)

(** C8 (amended). When the status monitor runs while not listening and
    with no error argument, it selects no status exactly when the startup
    delay has not elapsed ([foundPorts], an array, never makes the first
    test of the condition true), and it then emits nothing and changes
    nothing; what discovery has found plays no part before the delay has
    elapsed. *)
Theorem startup_delay_suppresses_status :
  forall w : World,
    isListening w = false ->
    (select_status None w = None <-> within_log_delay w = true)
    /\ (within_log_delay w = true -> doUpdateStatus status_repr None w = Done tt w).
Proof.
  intros w Hl.
  assert (E : select_status None w = None <-> within_log_delay w = true).
  { unfold select_status. rewrite Hl. cbn [array_truthy negb orb].
    destruct (within_log_delay w); split; intros H; try reflexivity; try discriminate.
    revert H.
    repeat match goal with
           | |- (if ?b then _ else _) = _ -> _ => destruct b
           end; discriminate. }
  split; [exact E|].
  intros H. rewrite doUpdateStatus_run. apply E in H. rewrite H. reflexivity.
Qed.

(** ** The status monitor over whole runs *)

Lemma no_repeat_snoc {A} (l : list A) (x : A) :
  no_repeat l ->
  match rev l with
  | a :: _ => a <> x
  | [] => True
  end ->
  no_repeat (l ++ [x]).
Proof.
  intros Hl Hx l1 a b l2 E.
  destruct (rev l2) as [|y r] eqn:Er.
  - assert (l2 = []) by (rewrite <- (rev_involutive l2), Er; reflexivity). subst l2.
    change (l1 ++ [a; b])%list with (l1 ++ [a] ++ [b])%list in E.
    rewrite app_assoc in E. apply app_inj_tail in E. destruct E as [E1 E2].
    subst l x. rewrite rev_unit in Hx. exact Hx.
  - assert (E2 : l2 = (rev r ++ [y])%list)
      by (rewrite <- (rev_involutive l2), Er; reflexivity).
    subst l2.
    change (l1 ++ a :: b :: rev r ++ [y])%list
      with (l1 ++ (a :: b :: rev r) ++ [y])%list in E.
    rewrite app_assoc in E. apply app_inj_tail in E. destruct E as [E1 _].
    exact (Hl _ _ _ _ E1).
Qed.

Lemma monitor_calls_app (a b : list Effect) :
  monitor_calls (a ++ b) = (monitor_calls a ++ monitor_calls b)%list.
Proof.
  induction a as [|e a IH]; [reflexivity|].
  destruct e; simpl; try exact IH.
  destruct s, m; simpl; rewrite ?IH; reflexivity.
Qed.

Lemma keeps_ret {A} (a : A) : keeps status_repr (ret a).
Proof. intros w H. exact H. Qed.

Lemma keeps_throw {A} (e : string) : keeps status_repr (@throw A e).
Proof. intros w H. exact H. Qed.

Lemma keeps_get {A} (g : World -> A) : keeps status_repr (get g).
Proof. intros w H. exact H. Qed.

Lemma keeps_bind {A B} (m : M A) (k : A -> M B) :
  keeps status_repr m -> (forall a, keeps status_repr (k a)) -> keeps status_repr (bind m k).
Proof.
  intros Hm Hk w H. rewrite final_bind. specialize (Hm w H).
  destruct (m w) as [a w'|e w']; [apply Hk|]; exact Hm.
Qed.

Lemma keeps_try_catch (m : M unit) (h : string -> M unit) :
  keeps status_repr m -> (forall e, keeps status_repr (h e)) -> keeps status_repr (try_catch m h).
Proof.
  intros Hm Hh w H. unfold try_catch. specialize (Hm w H).
  destruct (m w) as [a w'|e w']; [|apply Hh]; exact Hm.
Qed.

Lemma keeps_when (b : bool) (m : M unit) : keeps status_repr m -> keeps status_repr (when b m).
Proof. intros Hm. destruct b; [exact Hm|apply keeps_ret]. Qed.

Lemma keeps_forEach {A} (f : A -> M unit) (l : list A) :
  (forall x, keeps status_repr (f x)) -> keeps status_repr (forEach f l).
Proof.
  intros Hf. induction l as [|x l IH]; [apply keeps_ret|].
  simpl. apply keeps_bind; auto.
Qed.

Lemma keeps_deref {A} (field : World -> option A) (e : string) : keeps status_repr (deref field e).
Proof. intros w H. unfold deref, bind, get. destruct (field w); exact H. Qed.

(** An update that leaves the monitor's fields and the log alone. *)
Lemma keeps_modify (f : World -> World) :
  (forall v, lastStatus (f v) = lastStatus v) ->
  (forall v, emitted (f v) = emitted v) ->
  (forall v, trace (f v) = trace v) ->
  keeps status_repr (modify f).
Proof.
  intros H1 H2 H3 w (Ha & Hb & Hc). unfold modify, monitor_consistent. cbn [final].
  rewrite H1, H2, H3. auto.
Qed.

(** A call that is not one of the monitor's. *)
Lemma keeps_emit (e : Effect) : monitor_calls [e] = [] -> keeps status_repr (emit e).
Proof.
  intros He w (Ha & Hb & Hc). unfold emit, modify, monitor_consistent. cbn [final].
  fields. rewrite monitor_calls_app, He, app_nil_r. auto.
Qed.

Lemma keeps_clearInterval (x : option Handle) : keeps status_repr (clearInterval x).
Proof. destruct x; [apply keeps_modify; reflexivity|apply keeps_ret]. Qed.

Lemma keeps_setTimeout (delay : string) : keeps status_repr (setTimeout delay).
Proof.
  unfold setTimeout, fresh_handle.
  repeat first [ apply keeps_bind; [|intros] | apply keeps_get | apply keeps_ret
               | apply keeps_modify; reflexivity ].
Qed.

Lemma keeps_setInterval (ms : Z) : keeps status_repr (setInterval ms).
Proof.
  unfold setInterval, fresh_handle.
  repeat first [ apply keeps_bind; [|intros] | apply keeps_get | apply keeps_ret
               | apply keeps_modify; reflexivity ].
Qed.

Lemma differs_true (fp : string) (last : option string) :
  differs fp last = true <-> last <> Some fp.
Proof.
  destruct last as [s|]; simpl.
  - destruct (String.eqb_spec fp s); simpl; split; intros H; congruence.
  - split; [discriminate|reflexivity].
Qed.

Lemma keeps_doUpdateStatus (err : option ErrorObj) : keeps status_repr (doUpdateStatus status_repr err).
Proof.
  intros w (Ha & Hb & Hc). rewrite doUpdateStatus_run. cbn [final].
  destruct (select_status err w) as [sn|] eqn:Es; [|repeat split; assumption].
  destruct (_ && _) eqn:Ed; [|repeat split; assumption].
  apply andb_true_iff in Ed. destruct Ed as [_ Ed].
  unfold with_emission, monitor_consistent. fields. split; [|split].
  - unfold last_snapshot. rewrite rev_unit. reflexivity.
  - apply no_repeat_snoc; [exact Hb|].
    apply differs_true in Ed. rewrite Ha in Ed. unfold last_snapshot in Ed.
    destruct (rev (emitted w)) as [|a r]; [exact I|].
    intros ->. apply Ed. reflexivity.
  - rewrite monitor_calls_app, map_app, Hc. f_equal.
    unfold select_status in Es. revert Es.
    destruct (isListening w); [intros E; inversion E; reflexivity|].
    destruct err as [e|]; [intros E; inversion E; reflexivity|].
    repeat match goal with
           | |- (if ?b then _ else _) = _ -> _ => destruct b
           end; intros E; inversion E; reflexivity.
Qed.

Create HintDb relay_keeps.

#[local] Hint Resolve keeps_ret keeps_throw keeps_get keeps_deref keeps_clearInterval
  keeps_setTimeout keeps_setInterval keeps_doUpdateStatus : relay_keeps.

(** Walks through the body of a handler. *)
Ltac keep :=
  cbv zeta;
  repeat first
    [ solve [auto with relay_keeps]
    | apply keeps_emit; reflexivity
    | apply keeps_modify;
      intros v; try destruct (sPort v); try destruct (tServer v); reflexivity
    | apply keeps_when
    | apply keeps_forEach; intros
    | apply keeps_try_catch; [|intros]
    | apply keeps_bind; [|intros]
    | match goal with
      | |- keeps _ (match ?x with _ => _ end) => destruct x
      end ].

Lemma keeps_clearAll : keeps status_repr clearAll.
Proof. unfold clearAll. keep. Qed.

Lemma keeps_destroy : keeps status_repr destroy.
Proof. pose proof keeps_clearAll. unfold destroy, updateStatus, log. keep. Qed.

Lemma keeps_updateVariables : keeps status_repr updateVariables.
Proof. unfold updateVariables. keep. Qed.

Lemma keeps_sendError : keeps status_repr sendError.
Proof. unfold sendError, updateStatus, log. keep. Qed.

Lemma keeps_on_connection (socket : Socket) : keeps status_repr (on_connection socket).
Proof. pose proof keeps_updateVariables. unfold on_connection. keep. Qed.

Lemma keeps_on_socket_close (socket : Socket) : keeps status_repr (on_socket_close socket).
Proof. pose proof keeps_updateVariables. unfold on_socket_close. keep. Qed.

Lemma keeps_on_socket_data (data : Buffer) : keeps status_repr (on_socket_data data).
Proof. unfold on_socket_data, log. keep. Qed.

Lemma keeps_init_tcp : keeps status_repr (init_tcp status_repr).
Proof. unfold init_tcp. keep. Qed.

Lemma keeps_on_serial_close (err : option ErrorObj) :
  keeps status_repr (on_serial_close status_repr err).
Proof. unfold on_serial_close. keep. Qed.

Lemma keeps_on_serial_data (data : Buffer) : keeps status_repr (on_serial_data data).
Proof. unfold on_serial_data, log. keep. Qed.

Lemma keeps_init_serial : keeps status_repr (init_serial status_repr).
Proof. unfold init_serial. keep. Qed.

Lemma keeps_findPorts : keeps status_repr findPorts.
Proof. unfold findPorts. keep. Qed.

Lemma keeps_on_list_resolved (ports : list PortInfo) :
  keeps status_repr (on_list_resolved status_repr ports).
Proof. unfold on_list_resolved. keep. Qed.

Lemma keeps_on_list_rejected (err : string) : keeps status_repr (on_list_rejected err).
Proof. unfold on_list_rejected, log. keep. Qed.

Lemma keeps_scanForPorts : keeps status_repr (scanForPorts status_repr).
Proof.
  pose proof keeps_findPorts. pose proof keeps_init_serial.
  unfold scanForPorts. keep.
Qed.

Lemma keeps_applyConfig (cfg : Config) : keeps status_repr (applyConfig status_repr cfg).
Proof.
  pose proof keeps_clearAll. pose proof keeps_scanForPorts.
  pose proof keeps_updateVariables.
  unfold applyConfig, init_actions, init_variables, Date_now. keep.
Qed.

Lemma keeps_reselect (index : Z) (announce : string) :
  keeps status_repr (reselect status_repr index announce).
Proof.
  pose proof keeps_applyConfig.
  unfold reselect, port_at, log. keep.
Qed.

Lemma keeps_find_configured_index : keeps status_repr find_configured_index.
Proof. unfold find_configured_index. keep. Qed.

Lemma keeps_previousSPort_callback : keeps status_repr (previousSPort_callback status_repr).
Proof.
  pose proof keeps_reselect. pose proof keeps_find_configured_index.
  unfold previousSPort_callback, log. keep.
Qed.

Lemma keeps_nextSPort_callback : keeps status_repr (nextSPort_callback status_repr).
Proof.
  pose proof keeps_reselect. pose proof keeps_find_configured_index.
  unfold nextSPort_callback, log. keep.
Qed.

Lemma keeps_handle (ev : Event) : keeps status_repr (handle status_repr ev).
Proof.
  pose proof keeps_applyConfig. pose proof keeps_destroy.
  pose proof keeps_scanForPorts. pose proof keeps_sendError.
  pose proof keeps_on_list_resolved. pose proof keeps_on_list_rejected.
  pose proof keeps_init_tcp. pose proof keeps_on_serial_close.
  pose proof keeps_on_serial_data. pose proof keeps_on_connection.
  pose proof keeps_on_socket_close. pose proof keeps_on_socket_data.
  pose proof keeps_previousSPort_callback. pose proof keeps_nextSPort_callback.
  destruct ev; unfold handle, mark_port; keep.
Qed.

Lemma run_consistent (turns : list (Z * Event)) (w : World) :
  monitor_consistent status_repr w ->
  monitor_consistent status_repr (run status_repr w turns).
Proof.
  revert w. induction turns as [|[now ev] turns IH]; intros w H; [exact H|].
  unfold run. simpl fold_left. apply IH. unfold step. simpl fst. simpl snd.
  apply keeps_handle. exact H.
Qed.

(** X24. A call of the status monitor emits the status it selected (one
    status call, one log call) exactly when the selected code is a member
    of the host's enumeration and the fingerprint differs from the
    recorded one, and then records it; any other call does nothing.  Over
    every run from the constructed state the emissions of the monitor are
    exactly its status calls in the log, no two consecutive ones carry the
    same level, message and code, and the record is the fingerprint of
    the latest.  In the sample session the first emission is the
    listening status, recorded as the text of [l + m + s]. *)
Theorem status_monitor_never_repeats :
  (forall (w : World) (err : option ErrorObj),
      doUpdateStatus status_repr err w
      = Done tt match select_status err w with
                | Some sn =>
                    if InstanceStatus.defined (statusCode sn)
                       && differs (fingerprint status_repr sn) (lastStatus w)
                    then with_emission (fingerprint status_repr sn) sn w
                    else w
                | None => w
                end)
  /\ (forall (fp : string) (last : option string),
         differs fp last = true <-> last <> Some fp)
  /\ (forall turns : list (Z * Event),
         let w := run status_repr constructed turns in
         no_repeat (emitted w)
         /\ monitor_calls (trace w) = map snapshot_call (emitted w)
         /\ lastStatus w
            = option_map (fingerprint status_repr) (last_snapshot (emitted w)))
  /\ emitted world_listening
     = [mkSnapshot info "Listening on TCP port 9000" InstanceStatus.Ok]
  /\ lastStatus world_listening = Some "infoListening on TCP port 9000ok".
Proof.
  split; [intros w err; apply doUpdateStatus_run|]. split; [exact differs_true|].
  split; [|split; reflexivity].
  intros turns w.
  assert (H0 : monitor_consistent status_repr constructed).
  { repeat split. intros [|x [|y l1]] a b l2 E; discriminate. }
  destruct (run_consistent turns H0) as (Ha & Hb & Hc). auto.
Qed.

End RelayFacts.

(** * The properties on the concrete session *)

Lemma client_data_reaches_only_serial_witness :
  sPort world_two_clients = Some (mkSerialPortObj true)
  /\ (let w' := run status_names world_two_clients (client_turns sample_sends) in
      serial_written (trace w')
      = (serial_written (trace world_two_clients) ++ map snd sample_sends)%list
      /\ socket_written (trace w') = socket_written (trace world_two_clients)).
Proof.
  exact (conj eq_refl
              (@client_data_reaches_only_serial status_names sample_sends
                 world_two_clients (mkSerialPortObj true) eq_refl)).
Defined.

Lemma serial_data_reaches_every_client_witness :
  tSockets world_two_clients = Some [client_a; client_b]
  /\ (let w' := run status_names world_two_clients (serial_turns sample_reads) in
      socket_written (trace w')
      = (socket_written (trace world_two_clients)
         ++ flat_map (fun t => broadcast [client_a; client_b] (snd t)) sample_reads)%list
      /\ serial_written (trace w') = serial_written (trace world_two_clients)
      /\ tSockets w' = Some [client_a; client_b]).
Proof.
  exact (conj eq_refl
              (@serial_data_reaches_every_client status_names sample_reads
                 world_two_clients [client_a; client_b] eq_refl)).
Defined.


Lemma hardware_disconnect_cascades_witness :
  disconnected disconnect_error = true
  /\ tSockets world_two_clients = Some [client_a; client_b]
  /\ tServer world_two_clients = Some (mkServer 0)
  /\ (exists w',
         on_serial_close status_names (Some disconnect_error) world_two_clients = Done tt w'
         /\ trace w' = (trace (final (doUpdateStatus status_names (Some disconnect_error)
                                                     world_two_clients))
                        ++ map SockEnd [client_a; client_b] ++ [ServerClose])%list
         /\ isListening w' = false)
  /\ (forall err : option ErrorObj,
         match err with
         | Some e' => disconnected e' = false
         | None => True
         end ->
         let w'' := final (on_serial_close status_names err world_two_clients) in
         trace w'' = trace (final (doUpdateStatus status_names err world_two_clients))
         /\ isListening w'' = isListening world_two_clients).
Proof.
  exact (conj eq_refl
           (conj eq_refl
              (conj eq_refl
                 (@hardware_disconnect_cascades status_names world_two_clients
                    disconnect_error [client_a; client_b] (mkServer 0)
                    eq_refl eq_refl eq_refl)))).
Defined.

Lemma last_client_close_clears_listening_witness :
  tSockets world_one_client = Some [client_a]
  /\ exists w',
      handle status_names (EvSocketClose client_a) world_one_client = Done tt w'
      /\ tSockets w' = Some []
      /\ isListening w' = false
      /\ trace w' = (trace world_one_client ++ [HostSetVariableValues "Not connected"])%list
      /\ isSome (tServer w') = isSome (tServer world_one_client)
      /\ (forall (now : Z) (err : option ErrorObj) (sn : StatusSnapshot),
             select_status err (set_clock now w') = Some sn ->
             statusCode sn <> InstanceStatus.Ok).
Proof.
  exact (conj eq_refl
              (@last_client_close_clears_listening status_names world_one_client
                 client_a eq_refl)).
Defined.

Lemma discovery_failure_is_logged_and_retried_witness :
  scanning world_discovered = false
  /\ (let w1 := final (findPorts world_discovered) in
      let w2 := final (on_list_rejected "Error: enumeration failed" w1) in
      foundPorts w2 = []
      /\ trace w2 = (trace world_discovered
                     ++ [SerialPortList;
                         HostLog debug ("SerialPort.list: " ++ "Error: enumeration failed")])%list
      /\ lastStatus w2 = lastStatus world_discovered
      /\ emitted w2 = emitted world_discovered
      /\ scanning w2 = false
      /\ (match sPort world_discovered with
          | Some port => sp_isOpen port = false
          | None => True
          end ->
          list_requests (trace (final (scanForPorts status_names w2)))
          = S (list_requests (trace w2)))
      /\ (forall (cfg : Config) (v : World),
             let v' := final (applyConfig status_names cfg v) in
             portScan v' = Some (next_handle v)
             /\ In (next_handle v, ScanInterval 5000) (timers v'))
      /\ (forall (h : Handle) (ms : Z) (v : World),
             lookup_timer h (timers v) = Some (ScanInterval ms) ->
             handle status_names (EvTimer h) v = scanForPorts status_names v)).
Proof.
  exact (conj eq_refl
              (@discovery_failure_is_logged_and_retried status_names world_discovered
                 "Error: enumeration failed" eq_refl)).
Defined.

Lemma startup_delay_suppresses_status_witness :
  isListening world_discovered = false
  /\ (select_status None world_discovered = None
      <-> within_log_delay world_discovered = true)
  /\ (within_log_delay world_discovered = true ->
      doUpdateStatus status_names None world_discovered = Done tt world_discovered).
Proof.
  exact (conj eq_refl
              (@startup_delay_suppresses_status status_names world_discovered eq_refl)).
Defined.

(** * Further behaviour on the concrete session *)

(** C3. Teardown leaves the watchdog timer pending and the server
    listening.  A client connected, wrote once, which armed watchdog
    timer 1, and left.  In that state [clearAll] cancels the discovery
    timer, removes the listeners of the server and of the serial port and
    closes the serial port; it makes no [close] call on the server, which
    it forgets, and timer 1 stays pending, where [destroy] cancels it.
    With two clients connected it ends both and still does not close the
    server.  When the configuration is applied again, timer 1 outlives the
    teardown and, when it fires in the new session, raises the error
    status and logs a response timeout.  In every state [clearAll]
    cancels no timer but the discovery timer, and it makes no [close]
    call on a server whose [connections] is not above 0. *)
Theorem teardown_leaves_watchdog_and_listener :
  tServer world_client_left = Some (mkServer 0)
  /\ SERIAL_INTERVAL world_client_left = Some 1%nat
  /\ timers world_client_left
     = [(0%nat, ScanInterval 5000); (1%nat, WatchdogTimeout "500")]
  /\ clearAll world_client_left = Done tt (final (clearAll world_client_left))
  /\ calls_since world_client_left (final (clearAll world_client_left))
     = [ServerRemoveAllListeners; SerialRemoveAllListeners; SerialClose]
  /\ tServer (final (clearAll world_client_left)) = None
  /\ timers (final (clearAll world_client_left)) = [(1%nat, WatchdogTimeout "500")]
  /\ timers (final (destroy world_client_left)) = []
  /\ calls_since world_two_writes (final (clearAll world_two_writes))
     = [SockEnd client_a; SockRemoveAllListeners client_a;
        SockEnd client_b; SockRemoveAllListeners client_b;
        ServerRemoveAllListeners; SerialRemoveAllListeners; SerialClose]
  /\ timers world_reconfigured
     = [(1%nat, WatchdogTimeout "500"); (2%nat, ScanInterval 5000)]
  /\ calls_since world_reconfigured
       (run status_names world_reconfigured [(7500, EvTimer 1%nat)])
     = [HostUpdateStatus InstanceStatus.Error None;
        HostLog error (timeout_log sample_config)]
  /\ (forall (w : World) (h : Handle),
         portScan w <> Some h ->
         lookup_timer h (timers (final (clearAll w))) = lookup_timer h (timers w))
  /\ (forall (w : World) (srv : Server),
         tServer w = Some srv ->
         connections srv = 0%nat ->
         count_calls is_server_close (trace (final (clearAll w)))
         = count_calls is_server_close (trace w)).
Proof.
  repeat (split; [vm_compute; reflexivity|]).
  split; [exact clearAll_keeps_other_timers|exact clearAll_leaves_server_open].
Qed.

(** A failed enumeration does not leave the discovered set as it was: the
    set found by the first scan is gone after the failed second one. *)
Lemma failed_scan_clears_discovered_ports :
  foundPorts world_discovered
  = [mkPortDescriptor "none" "Not configured"; mkPortDescriptor "COM5" "FTDI"]
  /\ foundPorts world_failed_scan = []
  /\ foundPorts world_failed_scan <> foundPorts world_discovered.
Proof. repeat split; try reflexivity. vm_compute. discriminate. Qed.

(** A discovery result does not lift the suppression inside the startup
    delay: 200 ms after configuration, with COM5 discovered, the monitor
    still emits nothing, where past the delay the same state gives a
    status. *)
Lemma discovery_result_inside_delay_is_suppressed :
  isListening world_discovered = false
  /\ foundPorts world_discovered
     = [mkPortDescriptor "none" "Not configured"; mkPortDescriptor "COM5" "FTDI"]
  /\ within_log_delay (set_clock 200 world_discovered) = true
  /\ doUpdateStatus status_names None (set_clock 200 world_discovered)
     = Done tt (set_clock 200 world_discovered)
  /\ monitor_calls (trace world_discovered) = []
  /\ select_status None (set_clock 10000 world_discovered)
     = Some (mkSnapshot error "No serial port configured" InstanceStatus.BadConfig).
Proof. repeat split; reflexivity. Qed.

(** C5. An error is selected and never emitted.  The port has not opened
    and the monitor has reported that it is connecting.  For an error of
    the serial port the monitor then selects the error level, the message
    of the error and the member [Error] of the host's enumeration; the
    fingerprint of the three differs from the recorded one, yet the
    handler of the error event makes no call and records nothing, because
    the enumeration has no such member and [s != null] is false.  The
    same holds of every error passed to the monitor while the server is
    not listening. *)
Theorem error_status_is_never_emitted :
  isListening world_connecting = false
  /\ lastStatus world_connecting = Some "infoConnecting to COM5connecting"
  /\ select_status (Some access_denied) (set_clock 10200 world_connecting)
     = Some access_denied_snapshot
  /\ InstanceStatus.defined (statusCode access_denied_snapshot) = false
  /\ fingerprint status_names access_denied_snapshot
     = "errorError: Access deniedundefined"
  /\ differs (fingerprint status_names access_denied_snapshot)
             (lastStatus world_connecting) = true
  /\ handle status_names (EvSerialError access_denied) (set_clock 10200 world_connecting)
     = Done tt (set_clock 10200 world_connecting)
  /\ (forall (status_repr : InstanceStatus.t -> string) (w : World) (e : ErrorObj),
         isListening w = false ->
         doUpdateStatus status_repr (Some e) w = Done tt w).
Proof.
  repeat (split; [vm_compute; reflexivity|]).
  intros status_repr w e Hl. rewrite doUpdateStatus_run.
  unfold select_status. rewrite Hl. reflexivity.
Qed.

(** C6. Two client writes without an answer in between leave two watchdog
    timers pending, of which [SERIAL_INTERVAL] holds only the second; the
    answer of the device cancels that one, and the first still fires and
    sends the error message to both clients. *)
Theorem watchdog_rearm_stacks_timers :
  timers world_two_writes
  = [(0%nat, ScanInterval 5000); (1%nat, WatchdogTimeout "500");
     (2%nat, WatchdogTimeout "500")]
  /\ SERIAL_INTERVAL world_two_writes = Some 2%nat
  /\ timers world_answered = [(0%nat, ScanInterval 5000); (1%nat, WatchdogTimeout "500")]
  /\ socket_written
       (calls_since world_answered
          (run status_names world_answered [(7500, EvTimer 1%nat)]))
     = [(client_a, Str "ERR:NORESPONSE"); (client_b, Str "ERR:NORESPONSE")].
Proof. repeat split; reflexivity. Qed.

(** * Further properties of the handlers *)

(** ** Properties kept by the constructs of the monad *)

Section Preservation.

Variable P : World -> Prop.

Lemma preserves_ret {A} (a : A) : preserves P (ret a).
Proof. intros w H. exact H. Qed.

Lemma preserves_throw {A} (e : string) : preserves P (@throw A e).
Proof. intros w H. exact H. Qed.

Lemma preserves_get {A} (g : World -> A) : preserves P (get g).
Proof. intros w H. exact H. Qed.

Lemma preserves_deref {A} (field : World -> option A) (e : string) :
  preserves P (deref field e).
Proof. intros w H. unfold deref, bind, get. destruct (field w); exact H. Qed.

Lemma preserves_bind {A B} (m : M A) (k : A -> M B) :
  preserves P m -> (forall a, preserves P (k a)) -> preserves P (bind m k).
Proof.
  intros Hm Hk w H. rewrite final_bind. specialize (Hm w H).
  destruct (m w) as [a w'|e w']; [apply Hk|]; exact Hm.
Qed.

Lemma preserves_try_catch (m : M unit) (h : string -> M unit) :
  preserves P m -> (forall e, preserves P (h e)) -> preserves P (try_catch m h).
Proof.
  intros Hm Hh w H. unfold try_catch. specialize (Hm w H).
  destruct (m w) as [a w'|e w']; [|apply Hh]; exact Hm.
Qed.

Lemma preserves_when (b : bool) (m : M unit) : preserves P m -> preserves P (when b m).
Proof. intros Hm. destruct b; [exact Hm|apply preserves_ret]. Qed.

Lemma preserves_forEach {A} (f : A -> M unit) (l : list A) :
  (forall x, preserves P (f x)) -> preserves P (forEach f l).
Proof.
  intros Hf. induction l as [|x l IH]; [apply preserves_ret|].
  simpl. apply preserves_bind; auto.
Qed.

Lemma preserves_modify (f : World -> World) :
  (forall v, P v -> P (f v)) -> preserves P (modify f).
Proof. intros Hf w H. apply Hf. exact H. Qed.

Lemma preserves_emit (e : Effect) :
  (forall v, P v -> P (set_trace (trace v ++ [e]) v)) -> preserves P (emit e).
Proof. intros He w H. apply He. exact H. Qed.

Lemma preserves_doUpdateStatus (status_repr : InstanceStatus.t -> string)
      (err : option ErrorObj) :
  (forall v fp sn, P v -> P (with_emission fp sn v)) ->
  preserves P (doUpdateStatus status_repr err).
Proof.
  intros Hm w H. rewrite doUpdateStatus_run. cbn [final].
  destruct (select_status err w) as [sn|]; [|exact H].
  destruct (_ && _); [apply Hm|]; exact H.
Qed.

End Preservation.

(** Walks through a handler unfolded down to the constructs above; [leaf]
    settles what an update or a call does to the property. *)
Ltac walk leaf :=
  cbv zeta;
  repeat lazymatch goal with
         | |- preserves _ (bind _ _) => apply preserves_bind; [|intros]
         | |- preserves _ (ret _) => apply preserves_ret
         | |- preserves _ (throw _) => apply preserves_throw
         | |- preserves _ (get _) => apply preserves_get
         | |- preserves _ (deref _ _) => apply preserves_deref
         | |- preserves _ (doUpdateStatus _ _) =>
             apply preserves_doUpdateStatus; solve [leaf]
         | |- preserves _ (emit _) => apply preserves_emit; solve [leaf]
         | |- preserves _ (modify _) => apply preserves_modify; solve [leaf]
         | |- preserves _ (when _ _) => apply preserves_when
         | |- preserves _ (forEach _ _) => apply preserves_forEach; intros
         | |- preserves _ (try_catch _ _) => apply preserves_try_catch; [|intros]
         | |- preserves _ (match ?x with _ => _ end) => destruct x
         | |- preserves _ _ => assumption
         end.

Ltac unfold_handlers :=
  unfold handle, previousSPort_callback, nextSPort_callback, find_configured_index,
    reselect, port_at, applyConfig, scanForPorts, on_list_rejected, on_list_resolved,
    init_serial, on_serial_data, on_serial_close, init_tcp, on_socket_data,
    on_socket_close, on_connection, sendError, init_actions, init_variables,
    updateVariables, destroy, clearAll, mark_port,
    clearInterval, setTimeout, setInterval, fresh_handle, Date_now, log, updateStatus.

(** ** Scans do not overlap *)

Lemma scan_in_flight_findPorts (n : nat) (found : list PortDescriptor) :
  preserves (scan_in_flight n found) findPorts.
Proof.
  intros w (Hs & Hn). unfold findPorts. rewrite bind_get, Hs. split; assumption.
Qed.

Ltac scan_leaf :=
  idtac;
  lazymatch goal with
  | |- forall v fp sn, _ -> _ =>
      intros v fp sn (Hs & Hn & Hf); split; [exact Hs|split; [|exact Hf]];
      unfold with_emission; fields; rewrite list_requests_app, Hn; simpl; lia
  | |- forall v, scan_in_flight _ _ v -> scan_in_flight _ _ (set_trace _ v) =>
      intros v (Hs & Hn & Hf); split; [exact Hs|split; [|exact Hf]];
      fields; rewrite list_requests_app, Hn; simpl; lia
  | |- forall v, _ -> _ =>
      intros v (Hs & Hn & Hf); try destruct (sPort v); try destruct (tServer v);
      (split; [exact Hs|split; [exact Hn|exact Hf]])
  end.

Lemma scan_in_flight_handle (status_repr : InstanceStatus.t -> string) (n : nat)
      (found : list PortDescriptor) (ev : Event) :
  is_list_callback ev = false ->
  preserves (scan_in_flight n found) (handle status_repr ev).
Proof.
  pose proof (@scan_in_flight_findPorts n found) as Hfind.
  intros Hev. destruct ev; try discriminate Hev; unfold_handlers;
    walk scan_leaf.
Qed.

(** X1. While an enumeration is in flight, no handler other than the two
    callbacks of the enumeration asks for another one, releases the
    scanning flag or touches the discovered set: over any sequence of such
    events the flag stays set, the number of enumeration requests in the
    log does not grow and [foundPorts] is what it was. *)
Theorem scans_do_not_overlap :
  forall (status_repr : InstanceStatus.t -> string) (turns : list (Z * Event))
         (w : World),
    scanning w = true ->
    no_list_callback turns = true ->
    let w' := run status_repr w turns in
    scanning w' = true
    /\ list_requests (trace w') = list_requests (trace w)
    /\ foundPorts w' = foundPorts w.
Proof.
  intros status_repr turns.
  induction turns as [|[now ev] turns IH]; intros w Hs Hn; [repeat split; assumption|].
  simpl in Hn. apply andb_true_iff in Hn. destruct Hn as [Hev Hn].
  apply negb_true_iff in Hev.
  assert (H1 : scan_in_flight (list_requests (trace w)) (foundPorts w)
                 (step status_repr w (now, ev))).
  { unfold step. simpl fst. simpl snd.
    apply (@scan_in_flight_handle status_repr _ _ ev Hev). repeat split. exact Hs. }
  destruct H1 as (A & B & C).
  unfold run. simpl fold_left.
  destruct (IH (step status_repr w (now, ev)) A Hn) as (IA & IB & IC).
  unfold run in IA, IB, IC. rewrite IA, IB, IC, B, C. auto.
Qed.

(** ** What handlers leave alone *)

(** The same in a hypothesis. *)
Ltac fields_in H :=
  cbn [LOG_DELAY foundPorts tSockets sPortPath isOpen IPPort portScan tServer sPort config isListening startedAt scanning SERIAL_INTERVAL lastStatus timers next_handle clock trace emitted
       set_LOG_DELAY set_foundPorts set_tSockets set_sPortPath set_isOpen set_IPPort set_portScan set_tServer set_sPort set_config set_isListening set_startedAt set_scanning set_SERIAL_INTERVAL set_lastStatus set_timers set_next_handle set_clock set_trace set_emitted
       when isSome final connections sp_isOpen] in H.


Lemma preserved_eq {X A} (obs : World -> X) (m : M A) (w : World) :
  preserves (fun v => obs v = obs w) m -> obs (final (m w)) = obs w.
Proof. intros H. apply H. reflexivity. Qed.

Ltac same_leaf := idtac; intros; assumption.

Lemma set_clock_same (w : World) : set_clock (clock w) w = w.
Proof. destruct w; reflexivity. Qed.

(** ** Scanning while the port is open *)

Lemma scanForPorts_open (status_repr : InstanceStatus.t -> string) (w : World) :
  sPort w = Some (mkSerialPortObj true) ->
  scanForPorts status_repr w = Done tt w.
Proof.
  intros Hp. unfold scanForPorts. msteps. rewrite Hp. cbv zeta. fields.
  rewrite andb_false_r. cbn. reflexivity.
Qed.

(** X2. While the serial port is open the scan timer is idle: each firing
    of the interval timer leaves the whole state as it was, the clock
    apart; no status is computed, no enumeration requested and no port
    opened. *)
Theorem scan_timer_idle_while_open :
  forall (status_repr : InstanceStatus.t -> string) (times : list Z) (w : World)
         (h : Handle) (ms : Z),
    lookup_timer h (timers w) = Some (ScanInterval ms) ->
    sPort w = Some (mkSerialPortObj true) ->
    run status_repr w (tick_turns h times) = set_clock (last times (clock w)) w.
Proof.
  intros status_repr times.
  induction times as [|t times IH]; intros w h ms Ht Hp.
  - simpl. symmetry. apply set_clock_same.
  - simpl tick_turns. unfold run. simpl fold_left.
    assert (E : step status_repr w (t, EvTimer h) = set_clock t w).
    { unfold step. cbn [fst snd handle]. rewrite bind_get. cbv beta.
      fields. rewrite Ht. rewrite scanForPorts_open by exact Hp. reflexivity. }
    rewrite E. fold (run status_repr (set_clock t w) (tick_turns h times)).
    rewrite (IH (set_clock t w) h ms Ht Hp). fields.
    destruct times as [|t' times']; [reflexivity|].
    change (last (t :: t' :: times') (clock w)) with (last (t' :: times') (clock w)).
    assert (L : forall d1 d2, last (t' :: times') d1 = last (t' :: times') d2).
    { clear. revert t'. induction times' as [|a l IHl]; intros t' d1 d2; [reflexivity|].
      change (last (t' :: a :: l) d1) with (last (a :: l) d1).
      change (last (t' :: a :: l) d2) with (last (a :: l) d2). apply IHl. }
    rewrite (L t (clock w)). destruct w; reflexivity.
Qed.

(** ** What a successful scan finds *)

Lemma forEach_push (ports : list PortInfo) (w : World) :
  forEach (fun p =>
             when (truthy (pi_locationId p) || truthy (pi_pnpId p))
                  (modify (fun w => set_foundPorts (foundPorts w ++ [descriptor_of p]) w)))
          ports w
  = Done tt (set_foundPorts
               (foundPorts w ++ map descriptor_of (filter has_hardware_id ports)) w).
Proof.
  revert w. induction ports as [|p ports IH]; intros w.
  - simpl. rewrite app_nil_r. destruct w; reflexivity.
  - simpl forEach. simpl filter.
    change (truthy (pi_locationId p) || truthy (pi_pnpId p)) with (has_hardware_id p).
    destruct (has_hardware_id p); cbn [when].
    + rewrite bind_modify. rewrite IH. fields. simpl map.
      rewrite <- app_assoc. reflexivity.
    + rewrite bind_ret. apply IH.
Qed.

(** X3. A scan that succeeds replaces the discovered set: started with
    no enumeration in flight and resolved with [ports], it leaves in
    [foundPorts] the ports that carry a location or plug-and-play
    identifier, in the order listed, each with its path (or its legacy
    name) and its manufacturer (or "Internal"), after the placeholder
    "none" when there is at least one, and nothing at all otherwise; the
    scanning flag is released. *)
Theorem successful_scan_replaces_found_ports :
  forall (status_repr : InstanceStatus.t -> string) (ports : list PortInfo) (w : World),
    scanning w = false ->
    exists w',
      on_list_resolved status_repr ports (final (findPorts w)) = Done tt w'
      /\ foundPorts w' = discovered ports
      /\ scanning w' = false.
Proof.
  intros status_repr ports w Hs. unfold findPorts. rewrite bind_get, Hs. msteps.
  unfold emit, modify at 1. cbn [final]. unfold on_list_resolved.
  unfold bind at 1. rewrite forEach_push. fields. msteps. fields.
  unfold discovered. simpl app.
  destruct (map descriptor_of (filter has_hardware_id ports)) as [|d ds];
    cbn [List.length Nat.ltb Nat.leb when]; msteps;
    rewrite bind_doUpdateStatus; unfold modify;
    (eexists; split; [reflexivity|]); fields;
    match goal with
    | |- context [final (doUpdateStatus ?r ?e ?v)] =>
        destruct (doUpdateStatus_frame r e v) as (_ & _ & _ & _ & _ & Ff & _)
    end; rewrite Ff; fields; auto.
Qed.

(** ** Applying a configuration *)

Lemma init_serial_done (status_repr : InstanceStatus.t -> string) (w : World)
      (cfg : Config) :
  config w = Some cfg ->
  exists w',
    init_serial status_repr w = Done tt w'
    /\ sPort w' = (if path_configured (sPortPath w)
                   then Some (mkSerialPortObj false) else sPort w)
    /\ scanning w' = scanning w
    /\ foundPorts w' = foundPorts w
    /\ tSockets w' = tSockets w /\ tServer w' = tServer w
    /\ isListening w' = isListening w.
Proof.
  intros Hc. unfold init_serial, path_configured. rewrite bind_get. cbv beta.
  destruct (_ || _); cbn [negb].
  - eexists. split; [reflexivity|]. auto 10.
  - rewrite (bind_deref config _ _ _ (a := cfg)) by exact Hc.
    cbv zeta. msteps. rewrite doUpdateStatus_run.
    eexists. split; [reflexivity|].
    destruct (select_status _ _) as [sn|]; [destruct (_ && _)|];
      unfold with_emission; fields; auto 10.
Qed.

(** A scan made with no serial port object and a configuration in place. *)
Lemma scanForPorts_unconnected (status_repr : InstanceStatus.t -> string) (w : World)
      (cfg : Config) :
  sPort w = None ->
  config w = Some cfg ->
  exists w',
    scanForPorts status_repr w = Done tt w'
    /\ sPort w' = (if (0 <? List.length (foundPorts w))%nat && path_configured (sPortPath w)
                   then Some (mkSerialPortObj false) else None)
    /\ scanning w' = true
    /\ foundPorts w' = (if scanning w then foundPorts w else [])
    /\ list_requests (trace w')
       = (list_requests (trace w) + (if scanning w then 0 else 1))%nat
    /\ tSockets w' = tSockets w /\ tServer w' = tServer w
    /\ isListening w' = isListening w.
Proof.
  intros Hp Hc. unfold scanForPorts. msteps. rewrite Hp. cbv zeta.
  cbn [isSome negb when]. rewrite andb_true_r, orb_false_r.
  rewrite bind_bind, bind_doUpdateStatus.
  destruct (doUpdateStatus_frame status_repr None w)
    as (Fs & Fv & Fp & Fl & _ & Ff & Fsc & Fc & _).
  pose proof (doUpdateStatus_requests status_repr None w) as Fr.
  assert (Fpath : sPortPath (final (doUpdateStatus status_repr None w)) = sPortPath w).
  { apply (preserved_eq sPortPath). walk same_leaf. }
  set (w1 := final (doUpdateStatus status_repr None w)) in *.
  unfold findPorts. msteps. rewrite Fsc.
  destruct (scanning w) eqn:Hsc; msteps.
  - destruct (0 <? List.length (foundPorts w))%nat; cbn [when andb].
    + destruct (@init_serial_done status_repr w1 cfg) as (w2 & Hrun & A & B & C & D & E & F);
        [rewrite Fc; exact Hc|].
      assert (R : list_requests (trace w2) = list_requests (trace w1)).
      { rewrite <- (init_serial_requests status_repr w1), Hrun. reflexivity. }
      exists w2.
      rewrite Hrun, A, B, C, D, E, F, R, Fpath, Fp, Hp, Fsc, ?Hsc, Ff, Fs, Fv, Fl, Fr.
      rewrite Nat.add_0_r. destruct (path_configured (sPortPath w)); auto 10.
    + eexists. split; [reflexivity|].
      rewrite Fp, Hp, Fsc, ?Hsc, Ff, Fs, Fv, Fl, Fr, Nat.add_0_r. auto 10.
  - set (w1' := set_trace _ _).
    assert (G : sPort w1' = None /\ config w1' = Some cfg /\ sPortPath w1' = sPortPath w
                /\ tSockets w1' = tSockets w /\ tServer w1' = tServer w
                /\ isListening w1' = isListening w
                /\ list_requests (trace w1') = S (list_requests (trace w))).
    { unfold w1'. fields. rewrite Fp, Hp, Fc, Hc, Fpath, Fs, Fv, Fl.
      rewrite list_requests_app, Fr. simpl. rewrite Nat.add_1_r. auto 10. }
    destruct G as (G1 & G2 & G3 & G4 & G5 & G6 & G7).
    destruct (0 <? List.length (foundPorts w))%nat; cbn [when andb].
    + destruct (@init_serial_done status_repr w1' cfg G2)
        as (w2 & Hrun & A & B & C & D & E & F).
      assert (R : list_requests (trace w2) = list_requests (trace w1')).
      { rewrite <- (init_serial_requests status_repr w1'), Hrun. reflexivity. }
      exists w2. rewrite Hrun, A, B, C, D, E, F, R, G1, G3, G4, G5, G6, G7.
      unfold w1'. fields. rewrite Nat.add_1_r.
      destruct (path_configured (sPortPath w)); auto 10.
    + eexists. split; [reflexivity|]. rewrite G1, G4, G5, G6, G7.
      unfold w1'. fields. rewrite Nat.add_1_r. auto 10.
Qed.

Lemma scanForPorts_settings (status_repr : InstanceStatus.t -> string) (w : World) :
  settings (final (scanForPorts status_repr w)) = settings w.
Proof.
  apply (preserved_eq settings).
  unfold scanForPorts, findPorts, init_serial. walk same_leaf.
Qed.

Lemma applyConfig_run :
  forall (status_repr : InstanceStatus.t -> string) (cfg : Config) (w : World),
  exists w',
    applyConfig status_repr cfg w = Done tt w'
    /\ config w' = Some cfg
    /\ IPPort w' = (if truthy (iport cfg) then VStr (iport cfg) else VNum 32100)
    /\ sPortPath w' = (if truthy (sport cfg) then sport cfg else "none")
    /\ tSockets w' = Some []
    /\ tServer w' = None
    /\ isListening w' = false
    /\ startedAt w' = Some (clock w)
    /\ portScan w' = Some (next_handle w)
    /\ scanning w' = true
    /\ sPort w' = (if (0 <? List.length (foundPorts w))%nat
                      && path_configured (if truthy (sport cfg) then sport cfg else "none")
                   then Some (mkSerialPortObj false) else None)
    /\ foundPorts w' = (if scanning w then foundPorts w else []).
Proof.
  intros status_repr cfg w. unfold applyConfig. msteps.
  destruct (clearAll_run (set_config (Some cfg) w))
    as (w1 & Hrun & H1 & H2 & H3 & H4 & _ & _ & _ & Hn).
  pose proof (@preserved_eq _ _
                (fun v => (config v, foundPorts v, scanning v, clock v))
                clearAll (set_config (Some cfg) w)) as F1.
  rewrite Hrun in F1. cbn [final] in F1. cbv beta in F1. fields_in F1.
  assert (F1' := F1 ltac:(unfold clearAll, clearInterval; walk same_leaf)).
  clear F1. rename F1' into F1.
  injection F1 as Fc Ff Fs Fk.
  fields_in Hn.
  unfold bind at 1. rewrite Hrun. msteps.
  unfold setInterval, fresh_handle. msteps. fields. rewrite Hn, Fk.
  match goal with
  | |- context [bind (scanForPorts status_repr) ?k ?v] =>
      pose proof (scanForPorts_settings status_repr v) as Hset;
      destruct (@scanForPorts_unconnected status_repr v cfg)
        as (w2 & Hscan & A & B & Fnd & _ & C & D & E);
        [fields; exact H4 | fields; exact Fc |];
      unfold bind at 1; rewrite Hscan; rewrite Hscan in Hset
  end.
  cbn [final] in Hset. unfold settings in Hset. fields_in Hset.
  injection Hset as S1 S2 S3 S4 S5.
  fields_in A. fields_in C. fields_in D. fields_in E. fields_in Fnd.
  rewrite Ff in A. rewrite Fs, Ff in Fnd.
  unfold init_actions, init_variables, updateVariables. msteps.
  rewrite (bind_deref tSockets _ _ _ (a := [])) by (fields; exact C).
  cbv zeta. unfold emit, modify. eexists. split; [reflexivity|]. fields.
  rewrite S1, S2, S3, S4, S5, A, B, C, D, E, Fc, Fnd. auto 14.
Qed.

(** X4. Applying a configuration always runs to the end, whatever the
    state before.  After it the configuration is stored, the listen port
    and the serial path are the configured ones or, when empty, 32100 and
    "none"; there is no client, no server and no listening flag; the
    start time is the current time, the scan timer is a fresh interval
    timer, and an enumeration is in flight.  A serial port object exists,
    closed, exactly when the discovered set was not empty and the serial
    path is configured. *)
Theorem applyConfig_establishes :
  forall (status_repr : InstanceStatus.t -> string) (cfg : Config) (w : World),
  exists w',
    applyConfig status_repr cfg w = Done tt w'
    /\ config w' = Some cfg
    /\ IPPort w' = (if truthy (iport cfg) then VStr (iport cfg) else VNum 32100)
    /\ sPortPath w' = (if truthy (sport cfg) then sport cfg else "none")
    /\ tSockets w' = Some []
    /\ tServer w' = None
    /\ isListening w' = false
    /\ startedAt w' = Some (clock w)
    /\ portScan w' = Some (next_handle w)
    /\ scanning w' = true
    /\ sPort w' = (if (0 <? List.length (foundPorts w))%nat
                      && path_configured (if truthy (sport cfg) then sport cfg else "none")
                   then Some (mkSerialPortObj false) else None).
Proof.
  intros status_repr cfg w.
  destruct (applyConfig_run status_repr cfg w)
    as (w' & H0 & H1 & H2 & H3 & H4 & H5 & H6 & H7 & H8 & H9 & H10 & _).
  exists w'. auto 12.
Qed.

(** ** The list of clients *)

Lemma indexOf_lower (x : Socket) (l : list Socket) : -1 <= indexOf x l.
Proof.
  induction l as [|y l IH]; simpl; [lia|].
  destruct (socket_eqb y x); [lia|].
  destruct (indexOf x l <? 0) eqn:E; [lia|]. apply Z.ltb_ge in E. lia.
Qed.

Lemma indexOf_absent (x : Socket) (l : list Socket) :
  (forall s, In s l -> sock_id s <> sock_id x) -> indexOf x l = -1.
Proof.
  induction l as [|y l IH]; intros H; [reflexivity|].
  simpl. unfold socket_eqb.
  destruct (Nat.eqb_spec (sock_id y) (sock_id x)) as [E|E].
  - exfalso. apply (H y); [left; reflexivity|exact E].
  - rewrite IH by (intros s Hs; apply H; right; exact Hs). reflexivity.
Qed.

Lemma indexOf_first (x : Socket) (l1 l2 : list Socket) :
  (forall s, In s l1 -> sock_id s <> sock_id x) ->
  indexOf x (l1 ++ x :: l2) = Z.of_nat (List.length l1).
Proof.
  induction l1 as [|y l1 IH]; intros H.
  - simpl. rewrite socket_eqb_refl. reflexivity.
  - simpl app. simpl indexOf. unfold socket_eqb at 1.
    destruct (Nat.eqb_spec (sock_id y) (sock_id x)) as [E|E].
    + exfalso. apply (H y); [left; reflexivity|exact E].
    + rewrite IH by (intros s Hs; apply H; right; exact Hs).
      destruct (Z.of_nat (List.length l1) <? 0) eqn:Hl; [apply Z.ltb_lt in Hl; lia|].
      simpl List.length. lia.
Qed.

Lemma remove_at_middle {A} (l1 l2 : list A) (x : A) :
  remove_at (List.length l1) (l1 ++ x :: l2) = (l1 ++ l2)%list.
Proof. induction l1 as [|y l1 IH]; simpl; [|rewrite IH]; reflexivity. Qed.

Lemma splice1_middle {A} (l1 l2 : list A) (x : A) :
  splice1 (Z.of_nat (List.length l1)) (l1 ++ x :: l2) = (l1 ++ l2)%list.
Proof.
  unfold splice1.
  destruct (Z.of_nat (List.length l1) <? 0) eqn:E; [apply Z.ltb_lt in E; lia|].
  rewrite Z.min_l by (rewrite length_app; simpl; lia).
  rewrite Nat2Z.id. apply remove_at_middle.
Qed.

Lemma remove_at_last {A} (l : list A) :
  remove_at (List.length l - 1) l = removelast l.
Proof.
  induction l as [|y l IH]; [reflexivity|].
  destruct l as [|z l]; [reflexivity|].
  replace (List.length (y :: z :: l) - 1)%nat with (S (List.length (z :: l) - 1))
    by (simpl List.length; lia).
  cbn [remove_at]. rewrite IH. reflexivity.
Qed.

Lemma splice1_minus_one {A} (l : list A) : splice1 (-1) l = removelast l.
Proof.
  unfold splice1. change (-1 <? 0) with true. cbv iota.
  destruct l as [|y l]; [reflexivity|].
  rewrite Z.max_l by (simpl List.length; lia).
  replace (Z.to_nat (Z.of_nat (List.length (y :: l)) + -1))
    with (List.length (y :: l) - 1)%nat by lia.
  apply remove_at_last.
Qed.

Lemma on_socket_close_run (socket : Socket) (w : World) (socks : list Socket) :
  tSockets w = Some socks ->
  on_socket_close socket w
  = Done tt
      (let socks' := splice1 (indexOf socket socks) socks in
       set_trace (trace w ++ [HostSetVariableValues (ip_addr_of socks')])
         (set_isListening (0 <? List.length socks')%nat
            (set_tSockets (Some socks') w))).
Proof.
  intros Hs. unfold on_socket_close.
  rewrite (bind_deref tSockets _ _ _ (a := socks)) by exact Hs.
  cbv zeta. msteps. unfold updateVariables.
  rewrite (bind_deref tSockets _ _ _ (a := splice1 (indexOf socket socks) socks))
    by reflexivity.
  reflexivity.
Qed.

(** X5. When a registered client socket closes, exactly that socket leaves
    the list: the clients before and after it stay, in order; the
    listening flag becomes whether a client remains, whatever it was; the
    remaining addresses are published; the serial port, the server and the
    timers are untouched. *)
Theorem socket_close_removes_that_client :
  forall (w : World) (socket : Socket) (before after : list Socket),
    tSockets w = Some (before ++ socket :: after)%list ->
    (forall s, In s before -> sock_id s <> sock_id socket) ->
    exists w',
      on_socket_close socket w = Done tt w'
      /\ tSockets w' = Some (before ++ after)%list
      /\ isListening w' = (0 <? List.length (before ++ after))%nat
      /\ trace w' = (trace w ++ [HostSetVariableValues (ip_addr_of (before ++ after))])%list
      /\ sPort w' = sPort w /\ tServer w' = tServer w /\ timers w' = timers w.
Proof.
  intros w socket before after Hs Hb.
  rewrite (@on_socket_close_run socket w _ Hs). cbv zeta.
  rewrite (@indexOf_first socket before after Hb), splice1_middle.
  eexists. split; [reflexivity|]. fields. auto 10.
Qed.

(** X6. When a socket that is not in the list closes, [indexOf] gives -1
    and [splice(-1, 1)] removes the last registered client instead; an
    empty list stays empty. *)
Theorem socket_close_of_stranger_drops_last_client :
  forall (w : World) (socket : Socket) (socks : list Socket),
    tSockets w = Some socks ->
    (forall s, In s socks -> sock_id s <> sock_id socket) ->
    exists w',
      on_socket_close socket w = Done tt w'
      /\ tSockets w' = Some (removelast socks)
      /\ isListening w' = (0 <? List.length (removelast socks))%nat.
Proof.
  intros w socket socks Hs Hb.
  rewrite (@on_socket_close_run socket w _ Hs). cbv zeta.
  rewrite (@indexOf_absent socket socks Hb), splice1_minus_one.
  eexists. split; [reflexivity|]. fields. auto.
Qed.

Lemma on_connection_run (socket : Socket) (w : World) (socks : list Socket) :
  tSockets w = Some socks ->
  on_connection socket w
  = Done tt
      (set_trace (trace w ++ [HostSetVariableValues (ip_addr_of (socks ++ [socket]));
                              SockOn socket "err"; SockOn socket "close";
                              SockOn socket "data"])
         (set_tSockets (Some (socks ++ [socket])%list) w)).
Proof.
  intros Hs. unfold on_connection.
  rewrite (bind_deref tSockets _ _ _ (a := socks)) by exact Hs.
  msteps. unfold updateVariables. rewrite bind_bind.
  rewrite (bind_deref tSockets _ _ _ (a := (socks ++ [socket])%list)) by reflexivity.
  cbv zeta. msteps. unfold emit, modify. fields.
  rewrite <- !app_assoc. reflexivity.
Qed.

(** X7. A client that connects and later closes leaves the list of clients
    and the registered server as they were; on the way the list
    with the client, then the list without it, are published. *)
Theorem connect_then_close_restores_clients :
  forall (status_repr : InstanceStatus.t -> string) (w : World) (socket : Socket)
         (socks : list Socket) (t1 t2 : Z),
    tSockets w = Some socks ->
    (forall s, In s socks -> sock_id s <> sock_id socket) ->
    let w' := run status_repr w [(t1, EvConnection socket); (t2, EvSocketClose socket)] in
    tSockets w' = Some socks
    /\ tServer w' = tServer w
    /\ isListening w' = (0 <? List.length socks)%nat
    /\ trace w'
       = (trace w
          ++ [HostSetVariableValues (ip_addr_of (socks ++ [socket]));
              SockOn socket "err"; SockOn socket "close"; SockOn socket "data";
              HostSetVariableValues (ip_addr_of socks)])%list.
Proof.
  intros status_repr w socket socks t1 t2 Hs Hb w'. subst w'.
  unfold run. cbn [fold_left].
  assert (E1 : exists w1,
             step status_repr w (t1, EvConnection socket) = w1
             /\ tSockets w1 = Some (socks ++ [socket])%list
             /\ trace w1 = (trace w ++ [HostSetVariableValues (ip_addr_of (socks ++ [socket]));
                                        SockOn socket "err"; SockOn socket "close";
                                        SockOn socket "data"])%list
             /\ tServer w1 = tServer w).
  { unfold step. cbn [fst snd handle].
    rewrite (@on_connection_run socket _ socks) by exact Hs.
    eexists. split; [reflexivity|]. fields. auto. }
  destruct E1 as (w1 & -> & A & B & C).
  unfold step. cbn [fst snd handle].
  match goal with
  | |- context [on_socket_close socket ?v] =>
      rewrite (@on_socket_close_run socket v (socks ++ [socket])%list) by exact A
  end.
  cbv zeta. cbn [final].
  rewrite (@indexOf_first socket socks [] Hb), splice1_middle, app_nil_r. fields.
  rewrite C, B. rewrite <- ?app_assoc. simpl. auto.
Qed.

(** ** Arming and cancelling the watchdog *)

Lemma on_socket_data_run :
  forall (w : World) (data : Buffer) (port : SerialPortObj) (cfg : Config),
    sPort w = Some port ->
    config w = Some cfg ->
    exists w',
      on_socket_data data w = Done tt w'
      /\ (timers w', SERIAL_INTERVAL w', next_handle w')
         = (if response cfg
            then ((timers w ++ [(next_handle w, WatchdogTimeout (maxresponse cfg))])%list,
                  Some (next_handle w), S (next_handle w))
            else (timers w, SERIAL_INTERVAL w, next_handle w)).
Proof.
  intros w data port cfg Hp Hc. unfold on_socket_data. msteps.
  rewrite (bind_deref sPort _ _ _ (a := port)) by exact Hp. msteps.
  rewrite (bind_deref config _ _ _ (a := cfg)) by exact Hc.
  destruct (response cfg); cbn [when].
  - unfold setTimeout, fresh_handle. msteps. unfold modify.
    eexists. split; reflexivity.
  - eexists. split; reflexivity.
Qed.

(** X8. A client write arms the watchdog only when a response is
    expected: with [response] set, one timeout of [maxresponse] is added
    under a fresh handle, which [SERIAL_INTERVAL] then holds; otherwise
    the timers and [SERIAL_INTERVAL] are left as they were. *)
Theorem client_write_arms_watchdog_when_asked :
  forall (w : World) (data : Buffer) (port : SerialPortObj) (cfg : Config),
    sPort w = Some port ->
    config w = Some cfg ->
    exists w',
      on_socket_data data w = Done tt w'
      /\ (timers w', SERIAL_INTERVAL w', next_handle w')
         = (if response cfg
            then ((timers w ++ [(next_handle w, WatchdogTimeout (maxresponse cfg))])%list,
                  Some (next_handle w), S (next_handle w))
            else (timers w, SERIAL_INTERVAL w, next_handle w)).
Proof. exact on_socket_data_run. Qed.

(** X9. Client data that arrives when the serial port object is gone
    raises a TypeError after the debug log line: nothing is written, no
    timer is armed, and the rest of the state is as it was. *)
Theorem client_write_without_port_throws :
  forall (w : World) (data : Buffer),
    sPort w = None ->
    on_socket_data data w
    = Thrown (TypeError_undefined "write")
             (set_trace (trace w ++ [HostLog debug ("TCP: " ++ toHex (latin1 data ++ " "))]) w).
Proof.
  intros w data Hp. unfold on_socket_data. msteps.
  rewrite bind_deref_none by exact Hp. reflexivity.
Qed.

Lemma cancel_fresh (h : Handle) (t : Timer) (ts : list (Handle * Timer)) :
  Forall (fun x => (fst x < h)%nat) ts ->
  cancel h (ts ++ [(h, t)]) = ts.
Proof.
  intros H. unfold cancel. rewrite filter_app. simpl. rewrite Nat.eqb_refl. simpl.
  rewrite app_nil_r. induction H as [|[k u] l Hk Hl IH]; [reflexivity|].
  simpl. simpl in Hk.
  destruct (Nat.eqb_spec k h) as [E|E]; [lia|]. simpl. rewrite IH. reflexivity.
Qed.

Lemma lookup_fresh (h : Handle) (ts : list (Handle * Timer)) :
  Forall (fun x => (fst x < h)%nat) ts -> lookup_timer h ts = None.
Proof.
  intros H. induction H as [|[k u] l Hk Hl IH]; [reflexivity|].
  simpl. simpl in Hk. destruct (Nat.eqb_spec k h) as [E|E]; [lia|exact IH].
Qed.

(** X10. A write that is answered leaves no watchdog behind: with a
    response expected and every pending handle below the next fresh one,
    a client write followed by data from the serial port leaves the
    pending timers as they were before the write, so that the handle the
    write was given never fires. *)
Theorem answered_write_leaves_no_watchdog :
  forall (status_repr : InstanceStatus.t -> string) (w : World) (socket : Socket)
         (request answer : Buffer) (t1 t2 : Z) (port : SerialPortObj) (cfg : Config)
         (socks : list Socket),
    handles_fresh w ->
    sPort w = Some port ->
    config w = Some cfg ->
    response cfg = true ->
    tSockets w = Some socks ->
    let w' := run status_repr w [(t1, EvSocketData socket request);
                                 (t2, EvSerialData answer)] in
    timers w' = timers w
    /\ SERIAL_INTERVAL w' = Some (next_handle w)
    /\ lookup_timer (next_handle w) (timers w') = None.
Proof.
  intros status_repr w socket request answer t1 t2 port cfg socks Hf Hp Hc Hr Hs w'.
  subst w'. unfold run. cbn [fold_left].
  destruct (@on_socket_data_run (set_clock t1 w) request port cfg Hp Hc)
    as (w1 & Hrun & Hw).
  rewrite Hr in Hw. fields_in Hw. injection Hw as Ht Hi Hn.
  assert (E1 : step status_repr w (t1, EvSocketData socket request) = w1)
    by (unfold step; cbn [fst snd handle]; rewrite Hrun; reflexivity).
  rewrite E1.
  assert (Hs1 : tSockets w1 = Some socks).
  { pose proof (@preserved_eq _ _ tSockets (on_socket_data request) (set_clock t1 w)) as G.
    rewrite Hrun in G. cbn [final] in G. rewrite G; [exact Hs|].
    unfold on_socket_data, setTimeout, fresh_handle, log. walk same_leaf. }
  destruct (@on_serial_data_done answer (set_clock t2 w1) socks Hs1)
    as (w2 & Hrun2 & _ & _ & _ & Ht2).
  assert (E2 : step status_repr w1 (t2, EvSerialData answer) = w2)
    by (unfold step; cbn [fst snd handle]; rewrite Hrun2; reflexivity).
  rewrite E2.
  assert (Hi2 : SERIAL_INTERVAL w2 = SERIAL_INTERVAL w1).
  { pose proof (@preserved_eq _ _ SERIAL_INTERVAL (on_serial_data answer) (set_clock t2 w1)) as G.
    rewrite Hrun2 in G. cbn [final] in G. rewrite G; [reflexivity|].
    unfold on_serial_data, clearInterval, log. walk same_leaf. }
  fields_in Ht2. rewrite Hi in Ht2. rewrite Ht2, Ht, Hi2, Hi.
  rewrite (cancel_fresh _ Hf). split; [reflexivity|]. split; [reflexivity|].
  apply lookup_fresh. exact Hf.
Qed.

(** ** The status after a timeout and after a disconnect *)


Lemma differs_false (fp : string) (last : option string) :
  differs fp last = false -> last = Some fp.
Proof.
  destruct last as [s|]; simpl; [|discriminate].
  destruct (String.eqb_spec fp s); [congruence|discriminate].
Qed.

(** X12. A disconnect of the serial port while the server is listening is
    not reported as an error: the handler runs the monitor before it
    clears the listening flag, so the monitor selects the listening
    status; the only status call it can add is that one, and the record
    is the listening status when the handler ends with the flag
    cleared. *)
Theorem disconnect_while_listening_reports_listening :
  forall (status_repr : InstanceStatus.t -> string) (w : World) (e : ErrorObj)
         (socks : list Socket) (srv : Server),
    isListening w = true ->
    disconnected e = true ->
    tSockets w = Some socks ->
    tServer w = Some srv ->
    exists w',
      on_serial_close status_repr (Some e) w = Done tt w'
      /\ isListening w' = false
      /\ lastStatus w' = Some (fingerprint status_repr (listening_snapshot w))
      /\ monitor_calls (trace w')
         = (monitor_calls (trace w)
            ++ if differs (fingerprint status_repr (listening_snapshot w)) (lastStatus w)
               then [snapshot_call (listening_snapshot w)]
               else [])%list.
Proof.
  intros status_repr w e socks srv Hl Hd Hs Hv.
  unfold on_serial_close. rewrite bind_doUpdateStatus, Hd. cbn [when].
  rewrite doUpdateStatus_run. unfold select_status. rewrite Hl. cbn [final].
  fold (listening_snapshot w).
  cbn [statusCode listening_snapshot InstanceStatus.defined andb].
  destruct (differs _ _) eqn:Ed.
  - rewrite (bind_deref tSockets _ _ _ (a := socks)) by exact Hs. msteps.
    rewrite (bind_deref tServer _ _ _ (a := srv)) by exact Hv. msteps.
    unfold modify. eexists. split; [reflexivity|]. unfold with_emission. fields.
    rewrite !monitor_calls_app.
    assert (Z1 : monitor_calls (map SockEnd socks) = [])
      by (clear; induction socks as [|s l IH]; [reflexivity|exact IH]).
    rewrite Z1. cbn [app monitor_calls statusCode statusMessage listening_snapshot].
    rewrite !app_nil_r. repeat split; reflexivity.
  - rewrite (bind_deref tSockets _ _ _ (a := socks)) by exact Hs. msteps.
    rewrite (bind_deref tServer _ _ _ (a := srv)) by exact Hv. msteps.
    unfold modify. eexists. split; [reflexivity|]. fields.
    rewrite !monitor_calls_app.
    assert (Z1 : monitor_calls (map SockEnd socks) = [])
      by (clear; induction socks as [|s l IH]; [reflexivity|exact IH]).
    rewrite Z1. cbn [app monitor_calls]. rewrite !app_nil_r.
    rewrite (@differs_false _ _ Ed). repeat split; reflexivity.
Qed.

(** ** The hexadecimal rendering of the log *)

Lemma hex_pair_shape (c : ascii) :
  exists a b, hex_pair c = String a (String b "") /\ unhex_pair (hex_pair c) = c.
Proof.
  destruct c as [[] [] [] [] [] [] [] []]; vm_compute; eexists; eexists; split; reflexivity.
Qed.

Lemma append_empty_r (s : string) : (s ++ "")%string = s.
Proof. induction s as [|c s IH]; simpl; [|rewrite IH]; reflexivity. Qed.

Lemma append_assoc (a b c : string) : ((a ++ b) ++ c)%string = (a ++ b ++ c)%string.
Proof. induction a as [|x a IH]; simpl; [|rewrite IH]; reflexivity. Qed.

Lemma append_length (a b : string) :
  String.length (a ++ b) = (String.length a + String.length b)%nat.
Proof. induction a as [|x a IH]; simpl; [|rewrite IH]; reflexivity. Qed.

Lemma concat_empty_cons (h : string) (t : list string) :
  String.concat "" (h :: t) = (h ++ String.concat "" t)%string.
Proof.
  destruct t as [|h' t]; simpl; [rewrite append_empty_r|]; reflexivity.
Qed.

Lemma toHex_cons (c : ascii) (s : string) :
  toHex (String c s) = (hex_pair c ++ toHex s)%string.
Proof. unfold toHex. simpl map. rewrite concat_empty_cons. reflexivity. Qed.

(** X13. [toHex] renders a string character by character: the rendering
    of a concatenation is the concatenation of the renderings, and every
    character gives exactly two characters.  In particular the line
    logged for a buffer, where a space is appended before rendering, is
    the rendering of the bytes followed by "20". *)
Theorem toHex_is_two_digits_per_character :
  (forall a b : string, toHex (a ++ b) = (toHex a ++ toHex b)%string)
  /\ (forall s : string, String.length (toHex s) = (2 * String.length s)%nat)
  /\ (forall data : Buffer,
         toHex (latin1 data ++ " ") = (toHex (latin1 data) ++ "20")%string
         /\ String.length (toHex (latin1 data ++ " ")) = (2 * List.length data + 2)%nat).
Proof.
  assert (Happ : forall a b : string, toHex (a ++ b) = (toHex a ++ toHex b)%string).
  { induction a as [|c a IH]; intros b; [reflexivity|].
    simpl append. rewrite !toHex_cons, IH, append_assoc. reflexivity. }
  assert (Hlen : forall s : string, String.length (toHex s) = (2 * String.length s)%nat).
  { induction s as [|c s IH]; [reflexivity|].
    rewrite toHex_cons, append_length, IH.
    destruct (hex_pair_shape c) as (a & b & E & _). rewrite E. simpl. lia. }
  split; [exact Happ|]. split; [exact Hlen|].
  intros data. split.
  - rewrite Happ. reflexivity.
  - rewrite Hlen, append_length. unfold latin1.
    assert (L : forall l : list ascii, String.length (string_of_list_ascii l) = List.length l)
      by (induction l as [|x l IH]; simpl; [|rewrite IH]; reflexivity).
    rewrite L, length_map. simpl. lia.
Qed.

(** X14. On strings of 8-bit characters, which is what the class passes,
    [toHex] loses nothing: two strings with the same rendering are the
    same string. *)
Theorem toHex_is_injective :
  forall s1 s2 : string, toHex s1 = toHex s2 -> s1 = s2.
Proof.
  induction s1 as [|c1 s1 IH]; intros [|c2 s2] H.
  - reflexivity.
  - rewrite toHex_cons in H. destruct (hex_pair_shape c2) as (a & b & E & _).
    rewrite E in H. discriminate H.
  - rewrite toHex_cons in H. destruct (hex_pair_shape c1) as (a & b & E & _).
    rewrite E in H. discriminate H.
  - rewrite !toHex_cons in H.
    destruct (hex_pair_shape c1) as (a1 & b1 & E1 & U1).
    destruct (hex_pair_shape c2) as (a2 & b2 & E2 & U2).
    rewrite E1, E2 in H. simpl in H. injection H as Ha Hb Ht.
    assert (Ec : c1 = c2).
    { rewrite <- U1, <- U2, E1, E2, Ha, Hb. reflexivity. }
    rewrite Ec, (IH s2 Ht). reflexivity.
Qed.

(** ** Configuration fields *)

Lemma find_port_choice_none (sport : string) (found : list PortDescriptor) :
  (forall p, In p found -> path p <> sport) ->
  find (choice_is sport) (map port_choice found) = None.
Proof.
  induction found as [|d found IH]; intros H; [reflexivity|].
  simpl. unfold choice_is at 1. simpl.
  destruct (String.eqb_spec (path d) sport) as [E|E].
  - exfalso. apply (H d); [left; reflexivity|exact E].
  - apply IH. intros p Hp. apply H. right. exact Hp.
Qed.

Lemma find_port_choice_some (sport : string) (found : list PortDescriptor)
      (p : PortDescriptor) :
  In p found -> path p = sport ->
  exists c, find (choice_is sport) (map port_choice found) = Some c.
Proof.
  induction found as [|d found IH]; intros Hin Hp; [contradiction|].
  simpl. unfold choice_is at 1. simpl.
  destruct (String.eqb_spec (path d) sport) as [E|E]; [eexists; reflexivity|].
  destruct Hin as [->|Hin]; [contradiction|]. apply IH; assumption.
Qed.

(** X15. The configuration form follows discovery.  With no port found it
    shows the two fixed fields and a notice, and no serial setting at
    all.  With ports found, the configured port among them or the
    select-first-found option off, it leaves the state untouched and
    returns the eleven fields of [serial_field_ids]; the serial port
    dropdown offers exactly the discovered ports, in order, each labelled
    with manufacturer and path, and defaults to the first.  The listen
    port field defaults to what [IPPort] holds: the number 32100 after
    construction and after a configuration with no listen port, the
    configured text otherwise. *)
Theorem config_fields_follow_discovery :
  forall (Regex_PORT : string) (this_ports_length : option nat),
    (forall w : World,
        foundPorts w = [] ->
        getConfigFields Regex_PORT this_ports_length w
        = Done [info_field; iport_field Regex_PORT (IPPort w); info1_field] w)
    /\ (forall (w : World) (cfg : Config) (d : PortDescriptor) (rest : list PortDescriptor),
           config w = Some cfg ->
           foundPorts w = d :: rest ->
           (exists p, In p (d :: rest) /\ path p = sport cfg) \/ selectfirstfound cfg = false ->
           exists fields,
             getConfigFields Regex_PORT this_ports_length w = Done fields w
             /\ map f_id fields = serial_field_ids
             /\ nth_error fields 1 = Some (iport_field Regex_PORT (IPPort w))
             /\ nth_error fields 2
                = Some (dropdown "sport" "Serial port" 12 (VStr (path d))
                                 (map port_choice (d :: rest))))
    /\ f_default (iport_field Regex_PORT (IPPort constructed)) = Some (VNum 32100)
    /\ (forall (status_repr : InstanceStatus.t -> string) (cfg : Config) (w : World),
           f_default (iport_field Regex_PORT
                                  (IPPort (final (applyConfig status_repr cfg w))))
           = Some (if truthy (iport cfg) then VStr (iport cfg) else VNum 32100)).
Proof.
  intros Regex_PORT tpl. split; [|split; [|split; [reflexivity|]]].
  - intros w Hf. unfold getConfigFields. msteps. rewrite Hf. reflexivity.
  - intros w cfg d rest Hc Hf Hsel. unfold getConfigFields. msteps. rewrite Hf.
    cbn [List.length Nat.eqb array_truthy negb andb]. cbv zeta.
    rewrite bind_bind.
    rewrite (bind_deref config _ _ _ (a := cfg)) by exact Hc.
    rewrite bind_bind.
    assert (E : exists w', (match find (choice_is (sport cfg)) (map port_choice (d :: rest)) with
                            | Some _ => ret tt
                            | None => select_first_found tpl cfg (map port_choice (d :: rest))
                            end) w = Done tt w' /\ w' = w).
    { destruct Hsel as [(p & Hin & Hp)|Hoff].
      - destruct (@find_port_choice_some (sport cfg) (d :: rest) p Hin Hp) as [c Ec]. rewrite Ec.
        eexists. split; reflexivity.
      - destruct (find _ _); [eexists; split; reflexivity|].
        unfold select_first_found. rewrite Hoff. eexists. split; reflexivity. }
    destruct E as (w' & Erun & ->). unfold bind at 1. rewrite Erun. msteps.
    eexists. split; [reflexivity|]. split; [reflexivity|]. split; reflexivity.
  - intros status_repr cfg w.
    destruct (applyConfig_run status_repr cfg w) as (w' & Hrun & Hfacts).
    rewrite Hrun. cbn [final iport_field f_default].
    destruct Hfacts as (_ & Hport & _). rewrite Hport. reflexivity.
Qed.

(** X16. The select-first-found option.  When the configured port is not
    among the discovered ones and the option is on, the form logs that the
    port was not found and then reads the length of the property [ports]
    of the instance.  If the instance has no such property the call ends
    there with a TypeError and the configured port is not changed.  If it
    has one longer than 1, the second entry of the dropdown (the first
    port after the placeholder) becomes the configured port and the fields
    are returned. *)
Theorem select_first_found_reads_instance_ports :
  forall (Regex_PORT : string) (w : World) (cfg : Config)
         (d : PortDescriptor) (rest : list PortDescriptor),
    config w = Some cfg ->
    foundPorts w = d :: rest ->
    (forall p, In p (d :: rest) -> path p <> sport cfg) ->
    selectfirstfound cfg = true ->
    getConfigFields Regex_PORT None w
    = Thrown (TypeError_undefined "length")
             (set_trace (trace w ++ [HostLog info ("Previously selected port ("
                                                   ++ sport cfg ++ ") not found.")]) w)
    /\ (forall (n : nat) (d' : PortDescriptor) (rest' : list PortDescriptor),
           (1 < n)%nat ->
           rest = d' :: rest' ->
           exists fields w',
             getConfigFields Regex_PORT (Some n) w = Done fields w'
             /\ config w' = Some (set_sport (path d') cfg)
             /\ map f_id fields = serial_field_ids
             /\ foundPorts w' = foundPorts w).
Proof.
  intros Regex_PORT w cfg d rest Hc Hf Hnone Hon.
  pose proof (@find_port_choice_none (sport cfg) (d :: rest) Hnone) as Efind. split.
  - unfold getConfigFields. msteps. rewrite Hf.
    cbn [List.length Nat.eqb array_truthy negb andb]. cbv zeta.
    rewrite bind_bind.
    rewrite (bind_deref config _ _ _ (a := cfg)) by exact Hc.
    rewrite bind_bind. rewrite Efind. unfold select_first_found. rewrite Hon.
    cbn [when]. msteps. reflexivity.
  - intros n d' rest' Hn Hr. subst rest.
    unfold getConfigFields. msteps. rewrite Hf.
    cbn [List.length Nat.eqb array_truthy negb andb]. cbv zeta.
    rewrite bind_bind.
    rewrite (bind_deref config _ _ _ (a := cfg)) by exact Hc.
    rewrite bind_bind. rewrite Efind. unfold select_first_found. rewrite Hon.
    cbn [when]. msteps.
    assert (E : (1 <? n)%nat = true) by (apply Nat.ltb_lt; exact Hn).
    rewrite E. cbn [when map nth_error port_choice]. msteps.
    eexists. eexists. split; [reflexivity|]. fields. rewrite Hf. auto.
Qed.

(** ** The port selection actions *)

Lemma findIndex_range (p : string) (l : list PortDescriptor) :
  -1 <= findIndex p l < Z.of_nat (List.length l) \/ (l = [] /\ findIndex p l = -1).
Proof.
  induction l as [|d l IH]; [right; split; reflexivity|]. left.
  simpl findIndex. simpl List.length.
  destruct (path d =? p)%string; [lia|].
  destruct (findIndex p l <? 0) eqn:E; [lia|]. apply Z.ltb_ge in E.
  destruct IH as [IH|[-> IH]]; [lia|]. simpl in E. lia.
Qed.

Lemma find_configured_index_run (w : World) (cfg : Config) :
  config w = Some cfg ->
  find_configured_index w = Done (findIndex (sport cfg) (foundPorts w)) w.
Proof.
  intros Hc. unfold find_configured_index. rewrite bind_get. cbv beta.
  destruct (foundPorts w) as [|d l] eqn:E; [reflexivity|].
  rewrite (bind_deref config _ _ _ (a := cfg)) by exact Hc. reflexivity.
Qed.

Lemma reselect_run (status_repr : InstanceStatus.t -> string) (w : World) (cfg : Config)
      (index : Z) (announce : string) (d : PortDescriptor) :
  config w = Some cfg ->
  0 <= index ->
  nth_error (foundPorts w) (Z.to_nat index) = Some d ->
  exists w',
    reselect status_repr index announce w = Done tt w'
    /\ config w' = Some (set_sport (path d) cfg)
    /\ sPortPath w' = (if truthy (path d) then path d else "none")
    /\ tSockets w' = Some [] /\ tServer w' = None /\ isListening w' = false.
Proof.
  intros Hc Hi Hn. unfold reselect, port_at. msteps.
  destruct (index <? 0) eqn:E; [apply Z.ltb_lt in E; lia|]. rewrite Hn. msteps.
  rewrite (bind_deref config _ _ _ (a := cfg)) by exact Hc. cbv beta.
  fields. destruct (sPort w) as [[o]|]; msteps; fields; try destruct o; cbn [when]; msteps;
    match goal with
    | |- context [applyConfig status_repr ?c ?v] =>
        destruct (applyConfig_run status_repr c v)
          as (w' & Hrun & A & _ & B & C & D & E' & _);
        exists w'; rewrite Hrun; auto 10
    end.
Qed.

(** X17. The "previous port" action.  With the configured port at
    position [i] of the discovered set (-1 when it is not there), the
    action only logs that it cannot go back when [i] is at most 1; the
    placeholder at position 0 is never selected.  Otherwise the port at
    position [i - 1] becomes the configured one and the configuration is
    applied again. *)
Theorem previous_port_action :
  forall (status_repr : InstanceStatus.t -> string) (w : World) (cfg : Config),
    config w = Some cfg ->
    let i := findIndex (sport cfg) (foundPorts w) in
    (i <= 1 ->
     previousSPort_callback status_repr w
     = Done tt (set_trace
                  (trace w ++ [HostLog info "Cannot select previous Serial port in list: Already on the first port in the list."])
                  w))
    /\ (2 <= i ->
        exists d w',
          nth_error (foundPorts w) (Z.to_nat (i - 1)) = Some d
          /\ previousSPort_callback status_repr w = Done tt w'
          /\ config w' = Some (set_sport (path d) cfg)
          /\ sPortPath w' = (if truthy (path d) then path d else "none")).
Proof.
  intros status_repr w cfg Hc i. subst i.
  set (i := findIndex (sport cfg) (foundPorts w)).
  split; intros Hi; unfold previousSPort_callback, try_catch;
    unfold bind at 1; rewrite (@find_configured_index_run w cfg Hc); cbv zeta; fold i.
  - destruct (0 <? i - 1) eqn:E; [apply Z.ltb_lt in E; lia|]. reflexivity.
  - destruct (0 <? i - 1) eqn:E; [|apply Z.ltb_ge in E; lia].
    destruct (findIndex_range (sport cfg) (foundPorts w)) as [R|[_ R]];
      [|fold i in R; lia].
    fold i in R.
    destruct (nth_error (foundPorts w) (Z.to_nat (i - 1))) as [d|] eqn:En.
    + destruct (@reselect_run status_repr w cfg (i - 1)
                  "Selecting previous Serial port in list: " d Hc ltac:(lia) En)
        as (w' & Hrun & A & B & _).
      exists d, w'. rewrite Hrun. auto.
    + apply nth_error_None in En. lia.
Qed.

(** X18. The "next port" action.  With the configured port at position
    [i] of the discovered set (-1 when it is not there), the port at
    position [i + 1] becomes the configured one and the configuration is
    applied again, so a configured port that is not in the set is replaced
    by the first entry; at the last position the action only logs that it
    cannot go on. *)
Theorem next_port_action :
  forall (status_repr : InstanceStatus.t -> string) (w : World) (cfg : Config),
    config w = Some cfg ->
    let i := findIndex (sport cfg) (foundPorts w) in
    (Z.of_nat (List.length (foundPorts w)) <= i + 1 ->
     nextSPort_callback status_repr w
     = Done tt (set_trace
                  (trace w ++ [HostLog info "Cannot select next Serial port in list: Already on the last port in the list."])
                  w))
    /\ (i + 1 < Z.of_nat (List.length (foundPorts w)) ->
        exists d w',
          nth_error (foundPorts w) (Z.to_nat (i + 1)) = Some d
          /\ nextSPort_callback status_repr w = Done tt w'
          /\ config w' = Some (set_sport (path d) cfg)
          /\ sPortPath w' = (if truthy (path d) then path d else "none")).
Proof.
  intros status_repr w cfg Hc i. subst i.
  set (i := findIndex (sport cfg) (foundPorts w)).
  assert (Hlow : -1 <= i).
  { destruct (findIndex_range (sport cfg) (foundPorts w)) as [R|[_ R]]; fold i in R; lia. }
  split; intros Hi; unfold nextSPort_callback, try_catch;
    unfold bind at 1; rewrite (@find_configured_index_run w cfg Hc); cbv zeta; fold i;
    rewrite bind_get; cbv beta.
  - destruct (i + 1 <? Z.of_nat (List.length (foundPorts w))) eqn:E;
      [apply Z.ltb_lt in E; lia|]. reflexivity.
  - destruct (i + 1 <? Z.of_nat (List.length (foundPorts w))) eqn:E;
      [|apply Z.ltb_ge in E; lia].
    destruct (nth_error (foundPorts w) (Z.to_nat (i + 1))) as [d|] eqn:En.
    + destruct (@reselect_run status_repr w cfg (i + 1)
                  "Selecting next Serial port in list: " d Hc ltac:(lia) En)
        as (w' & Hrun & A & B & _).
      exists d, w'. rewrite Hrun. auto.
    + apply nth_error_None in En. lia.
Qed.

(** ** The upgrade script *)

Lemma upgradePass_cons (a : Action) (rest : list Action) :
  upgradePass (a :: rest)
  = if mute_unset a
    then (true, mkAction (action a) (JsText "1") :: snd (upgradePass rest))
    else (fst (upgradePass rest), a :: snd (upgradePass rest)).
Proof.
  cbn [upgradePass]. destruct (upgradePass rest) as [changed rest'].
  unfold mute_unset. cbn [fst snd].
  destruct ("mute_grp" =? action a)%string; destruct (options_mute a); reflexivity.
Qed.

Lemma mute_set_settled (name : string) : mute_unset (mkAction name (JsText "1")) = false.
Proof. unfold mute_unset. cbn [options_mute]. apply andb_false_r. Qed.

Lemma upgradePass_facts :
  forall actions : list Action,
    fst (upgradePass actions) = existsb mute_unset actions
    /\ map action (snd (upgradePass actions)) = map action actions
    /\ (forall a, In a actions -> mute_unset a = false -> In a (snd (upgradePass actions)))
    /\ upgradePass (snd (upgradePass actions)) = (false, snd (upgradePass actions)).
Proof.
  induction actions as [|a rest (IH1 & IH2 & IH3 & IH4)].
  - split; [reflexivity|]. split; [reflexivity|]. split; [intros a []|reflexivity].
  - rewrite upgradePass_cons. cbn [existsb map].
    destruct (mute_unset a) eqn:Ea; cbn [fst snd orb map action].
    + split; [reflexivity|]. split; [rewrite IH2; reflexivity|]. split.
      * intros b [<-|Hb] Hm; [congruence|right; apply IH3; assumption].
      * rewrite upgradePass_cons, mute_set_settled, IH4. reflexivity.
    + split; [exact IH1|]. split; [rewrite IH2; reflexivity|]. split.
      * intros b [<-|Hb] Hm; [left; reflexivity|right; apply IH3; assumption].
      * rewrite upgradePass_cons, Ea, IH4. reflexivity.
Qed.

(** X19. One pass over a list of actions settles it: the pass reports a
    change exactly when some "mute_grp" action has a null [mute] option;
    it keeps the number and the identifiers of the actions and every
    action that is not of that kind; and a second pass over its result
    reports no change and returns it as it is. *)
Theorem upgradePass_settles :
  forall actions : list Action,
    fst (upgradePass actions) = existsb mute_unset actions
    /\ map action (snd (upgradePass actions)) = map action actions
    /\ (forall a, In a actions -> mute_unset a = false -> In a (snd (upgradePass actions)))
    /\ upgradePass (snd (upgradePass actions)) = (false, snd (upgradePass actions)).
Proof. exact upgradePass_facts. Qed.

(** X20. The upgrade script never settles on a configuration that has a
    [host]: run again on its own result it changes nothing, yet it
    reports a change exactly when [host] is defined. *)
Theorem upgrade_script_reports_host_on_every_run :
  forall (F : Type) (cfg : SavedConfig) (actions releaseActions : list Action)
         (feedbacks : list F),
    let result := snd (upgrade_script cfg actions releaseActions feedbacks) in
    upgrade_script (fst (fst result)) (snd (fst result)) (snd result) feedbacks
    = (match host cfg with
       | JsUndefined => false
       | _ => true
       end, result).
Proof.
  intros F cfg actions releaseActions feedbacks.
  destruct (upgradePass_facts actions) as (_ & _ & _ & A).
  destruct (upgradePass_facts releaseActions) as (_ & _ & _ & R).
  unfold upgrade_script.
  destruct (upgradePass actions) as [c1 a1]. destruct (upgradePass releaseActions) as [c2 r1].
  simpl in A, R.
  destruct (host cfg) eqn:Eh; cbn; rewrite ?Eh, A, R; cbn; rewrite ?Eh; reflexivity.
Qed.

(** ** From the serial port to the server *)

Lemma lastStatus_after_monitor (status_repr : InstanceStatus.t -> string)
      (err : option ErrorObj) (w : World) (sn : StatusSnapshot) :
  select_status err w = Some sn ->
  InstanceStatus.defined (statusCode sn) = true ->
  lastStatus (final (doUpdateStatus status_repr err w)) = Some (fingerprint status_repr sn).
Proof.
  intros Hs Hd. rewrite doUpdateStatus_run, Hs, Hd. cbn [final andb].
  destruct (differs _ _) eqn:Ed; [reflexivity|]. apply differs_false. exact Ed.
Qed.

(** X21. When the serial port reports that it is open, a new server is
    created and registered with no connection counted, limited to 4
    connections and told to listen on the configured port; a server
    registered before is replaced without being closed.  The listening
    flag is set and the monitor's record is the listening status. *)
Theorem serial_open_starts_server :
  forall (status_repr : InstanceStatus.t -> string) (w : World),
  exists w' status_calls,
    handle status_repr EvSerialOpen w = Done tt w'
    /\ tServer w' = Some (mkServer 0)
    /\ isListening w' = true
    /\ lastStatus w' = Some (fingerprint status_repr (listening_snapshot w))
    /\ trace w' = (trace w
                   ++ [ServerNew; ServerMaxConnections 4; ServerOn "error";
                       ServerOn "connection"; ServerListen (IPPort w)]
                   ++ status_calls)%list
    /\ count_calls (fun e => match e with ServerClose => true | _ => false end) status_calls = O.
Proof.
  intros status_repr w. cbn [handle]. unfold mark_port, init_tcp. msteps.
  destruct (sPort w) as [port|]; fields;
    rewrite doUpdateStatus_run; unfold select_status; fields;
    cbn [statusCode InstanceStatus.defined andb];
    match goal with
    | |- context [differs ?fp ?l] => destruct (differs fp l) eqn:Ed
    end;
    eexists; eexists; (split; [reflexivity|]); unfold with_emission; fields;
    (split; [reflexivity|]); (split; [reflexivity|]);
    (split; [try reflexivity; apply differs_false in Ed; exact Ed|]);
    rewrite <- !app_assoc; cbn [app];
    try (split; [f_equal; f_equal; f_equal; f_equal; f_equal; f_equal;
                 instantiate (1 := []); reflexivity | reflexivity]);
    (split; [reflexivity|reflexivity]).
Qed.

Lemma doUpdateStatus_count (status_repr : InstanceStatus.t -> string)
      (p : Effect -> bool) (err : option ErrorObj) (w : World) :
  (forall s m, p (HostUpdateStatus s m) = false) ->
  (forall l m, p (HostLog l m) = false) ->
  count_calls p (trace (final (doUpdateStatus status_repr err w)))
  = count_calls p (trace w).
Proof.
  intros H1 H2. rewrite doUpdateStatus_run. cbn [final].
  destruct (select_status err w) as [sn|]; [|reflexivity].
  destruct (_ && _); [|reflexivity].
  unfold with_emission. fields. rewrite count_calls_app. simpl.
  rewrite H1, H2. lia.
Qed.

Lemma doUpdateStatus_done (status_repr : InstanceStatus.t -> string)
      (err : option ErrorObj) (w : World) :
  doUpdateStatus status_repr err w = Done tt (final (doUpdateStatus status_repr err w)).
Proof. rewrite doUpdateStatus_run. reflexivity. Qed.

Lemma doUpdateStatus_filter (status_repr : InstanceStatus.t -> string)
      (p : Effect -> bool) (err : option ErrorObj) (w : World) :
  (forall s m, p (HostUpdateStatus s m) = false) ->
  (forall l m, p (HostLog l m) = false) ->
  filter p (trace (final (doUpdateStatus status_repr err w))) = filter p (trace w).
Proof.
  intros H1 H2. rewrite doUpdateStatus_run. cbn [final].
  destruct (select_status err w) as [sn|]; [|reflexivity].
  destruct (_ && _); [|reflexivity].
  unfold with_emission. fields. rewrite filter_app. cbn [filter].
  rewrite H1, H2. apply app_nil_r.
Qed.

(** X22. A port that has not opened is opened again at every scan: with a
    serial port object that is not open and a configured path, each run
    of the scan callback constructs a new serial port object from the
    configured options, attaches the four listeners to it and calls
    [open] on it, and makes no other call on a serial port: the object
    it replaces is neither closed nor stripped of its listeners.  The new
    object is not open either and the configuration and the path are
    unchanged, so the next scan does the same. *)
Theorem closed_port_is_reopened_each_scan :
  forall (status_repr : InstanceStatus.t -> string) (w : World) (cfg : Config),
    sPort w = Some (mkSerialPortObj false) ->
    config w = Some cfg ->
    path_configured (sPortPath w) = true ->
    exists w',
      scanForPorts status_repr w = Done tt w'
      /\ filter is_serial_call (trace w')
         = (filter is_serial_call (trace w)
            ++ [SerialNew (port_options w cfg); SerialOn "error"; SerialOn "open";
                SerialOn "close"; SerialOn "data"; SerialOpen])%list
      /\ sPort w' = Some (mkSerialPortObj false)
      /\ config w' = Some cfg
      /\ sPortPath w' = sPortPath w
      /\ count_calls is_serial_open (trace w') = S (count_calls is_serial_open (trace w))
      /\ count_calls is_serial_release (trace w') = count_calls is_serial_release (trace w).
Proof.
  intros status_repr w cfg Hp Hc Hpath. unfold scanForPorts. msteps. rewrite Hp.
  cbv zeta. fields. cbn [negb andb orb when]. rewrite orb_true_r. cbn [when].
  rewrite bind_bind, bind_doUpdateStatus.
  destruct (doUpdateStatus_frame status_repr None w)
    as (_ & _ & _ & _ & _ & _ & Fsc & Fc & _).
  assert (Fpath : sPortPath (final (doUpdateStatus status_repr None w)) = sPortPath w).
  { apply (preserved_eq sPortPath). walk same_leaf. }
  assert (C1 : forall p, (forall s m, p (HostUpdateStatus s m) = false) ->
                         (forall l m, p (HostLog l m) = false) ->
                         count_calls p (trace (final (doUpdateStatus status_repr None w)))
                         = count_calls p (trace w))
    by (intros p; apply doUpdateStatus_count).
  pose proof (doUpdateStatus_filter status_repr is_serial_call None w
                (fun _ _ => eq_refl) (fun _ _ => eq_refl)) as S1.
  set (w1 := final (doUpdateStatus status_repr None w)) in *.
  assert (E : exists w2, findPorts w1 = Done tt w2
                         /\ config w2 = Some cfg /\ sPortPath w2 = sPortPath w
                         /\ filter is_serial_call (trace w2)
                            = filter is_serial_call (trace w)
                         /\ count_calls is_serial_open (trace w2)
                            = count_calls is_serial_open (trace w)
                         /\ count_calls is_serial_release (trace w2)
                            = count_calls is_serial_release (trace w)).
  { unfold findPorts. rewrite bind_get. cbv beta.
    destruct (scanning w1).
    - exists w1. rewrite Fc, Hc, Fpath, S1, !C1 by reflexivity. auto 10.
    - msteps. unfold emit, modify. eexists. split; [reflexivity|]. fields.
      rewrite filter_app, !count_calls_app, Fc, Hc, Fpath, S1, !C1 by reflexivity. simpl.
      rewrite !Nat.add_0_r, app_nil_r. auto 10. }
  destruct E as (w2 & Hrun & Hc2 & Hp2 & S2 & O2 & R2).
  unfold bind at 1. rewrite Hrun.
  unfold init_serial. rewrite bind_get. cbv beta.
  unfold path_configured in Hpath. rewrite Hp2.
  destruct (_ || _); [discriminate Hpath|].
  rewrite (bind_deref config _ _ _ (a := cfg)) by exact Hc2.
  cbv zeta. msteps.
  match goal with
  | |- context [doUpdateStatus status_repr None ?v] =>
      pose proof (doUpdateStatus_count status_repr is_serial_open None v
                    (fun _ _ => eq_refl) (fun _ _ => eq_refl)) as O3;
      pose proof (doUpdateStatus_count status_repr is_serial_release None v
                    (fun _ _ => eq_refl) (fun _ _ => eq_refl)) as R3;
      pose proof (doUpdateStatus_filter status_repr is_serial_call None v
                    (fun _ _ => eq_refl) (fun _ _ => eq_refl)) as S3;
      destruct (doUpdateStatus_frame status_repr None v)
        as (_ & _ & Fp3 & _ & _ & _ & _ & Fc3 & _);
      pose proof (@preserved_eq _ _ sPortPath (doUpdateStatus status_repr None) v
                    ltac:(walk same_leaf)) as Fpath3;
      rewrite (doUpdateStatus_done status_repr None v);
      set (w3 := final (doUpdateStatus status_repr None v)) in *
  end.
  exists w3. split; [reflexivity|]. rewrite Fp3, Fc3, Fpath3, O3, R3, S3. clearbody w3. fields.
  rewrite !filter_app, !count_calls_app, S2, O2, R2.
  cbn [filter is_serial_call app count_calls is_serial_open is_serial_release].
  unfold port_options. rewrite <- !app_assoc. cbn [app].
  split; [reflexivity|]. split; [reflexivity|]. split; [exact Hc2|].
  split; [exact Hp2|]. split; lia.
Qed.

Lemma scan_after_delay (status_repr : InstanceStatus.t -> string) (v : World) (t0 : Z) :
  foundPorts v = [] ->
  sPort v = None ->
  tServer v = None ->
  isListening v = false ->
  startedAt v = Some t0 ->
  t0 + LOG_DELAY v <= clock v ->
  let w3 := final (scanForPorts status_repr v) in
  lastStatus w3 = Some (fingerprint status_repr no_ports_snapshot)
  /\ sPort w3 = None
  /\ tServer w3 = None
  /\ foundPorts w3 = [].
Proof.
  intros G1 G2 G3 G4 G5 Ht.
  assert (R : exists w', scanForPorts status_repr v = Done tt w'
                         /\ lastStatus w' = Some (fingerprint status_repr no_ports_snapshot)
                         /\ sPort w' = None /\ tServer w' = None /\ foundPorts w' = []).
  { unfold scanForPorts. msteps. rewrite G2. cbv zeta.
    cbn [isSome negb when]. rewrite andb_true_r, orb_false_r, G1.
    cbn [List.length Nat.ltb Nat.leb when].
    rewrite bind_bind, bind_doUpdateStatus.
    assert (Sel : select_status None v = Some no_ports_snapshot).
    { unfold select_status, within_log_delay.
      rewrite G4, G5, G1. cbn [array_truthy negb orb].
      destruct (clock v <? t0 + LOG_DELAY v) eqn:E; [apply Z.ltb_lt in E; lia|].
      reflexivity. }
    pose proof (lastStatus_after_monitor status_repr None v Sel eq_refl) as L.
    pose proof (@preserved_eq _ _ (fun u => (foundPorts u, sPort u, tServer u))
                  (doUpdateStatus status_repr None) v ltac:(walk same_leaf)) as G'.
    set (w3 := final (doUpdateStatus status_repr None v)) in *.
    cbv beta in G'. rewrite G1, G2, G3 in G'. injection G' as H1 H2 H3.
    clearbody w3. unfold findPorts. msteps.
    destruct (scanning w3); msteps; unfold emit, modify, ret;
      (eexists; split; [reflexivity|]); fields; rewrite L, ?H1, H2, H3; auto. }
  destruct R as (w' & Hrun & R1 & R2 & R3 & R4).
  cbv zeta. rewrite Hrun. cbn [final]. auto.
Qed.

Lemma list_resolved_empty (status_repr : InstanceStatus.t -> string) (v : World) :
  foundPorts v = [] ->
  exists w',
    on_list_resolved status_repr [] v = Done tt w'
    /\ (foundPorts w', sPort w', tServer w', isListening w', startedAt w', LOG_DELAY w')
       = ([], sPort v, tServer v, isListening v, startedAt v, LOG_DELAY v).
Proof.
  intros Hf. unfold on_list_resolved. cbn [forEach]. msteps. rewrite Hf.
  cbn [List.length Nat.ltb Nat.leb when]. msteps.
  rewrite bind_doUpdateStatus. unfold modify.
  pose proof (@preserved_eq _ _
                (fun u => (foundPorts u, sPort u, tServer u, isListening u,
                           startedAt u, LOG_DELAY u))
                (doUpdateStatus status_repr None) v ltac:(walk same_leaf)) as G.
  set (w2 := final (doUpdateStatus status_repr None v)) in *. clearbody w2.
  eexists. split; [reflexivity|]. fields. cbv beta in G. rewrite Hf in G. exact G.
Qed.

(** X23. With no device the error status comes after the startup delay.
    Starting with an empty discovered set and no enumeration in flight,
    once the configuration has been applied at time [t0] and the
    enumeration has found no port, a scan made when the delay has elapsed
    records the status "No serial ports detected"; no serial port object
    and no server exist. *)
Theorem no_device_is_reported_after_the_delay :
  forall (status_repr : InstanceStatus.t -> string) (cfg : Config) (w : World)
         (t0 t1 t2 : Z),
    scanning w = false ->
    foundPorts w = [] ->
    t0 + LOG_DELAY w <= t2 ->
    let w2 := run status_repr w [(t0, EvInit cfg); (t1, EvListResolved [])] in
    let w3 := final (scanForPorts status_repr (set_clock t2 w2)) in
    lastStatus w3 = Some (fingerprint status_repr no_ports_snapshot)
    /\ sPort w3 = None
    /\ tServer w3 = None
    /\ foundPorts w3 = [].
Proof.
  intros status_repr cfg w t0 t1 t2 Hsc Hf Ht w2 w3.
  destruct (applyConfig_run status_repr cfg (set_clock t0 w))
    as (w1 & Hrun & A1 & _ & _ & A4 & A5 & A6 & A7 & _ & A9 & A10 & A11).
  fields_in A7. fields_in A10. fields_in A11.
  rewrite Hf in A10. rewrite Hsc in A11. cbn [List.length Nat.ltb Nat.leb andb] in A10.
  assert (AL : LOG_DELAY w1 = LOG_DELAY w).
  { pose proof (@preserved_eq _ _ LOG_DELAY (applyConfig status_repr cfg)
                  (set_clock t0 w)) as G.
    rewrite Hrun in G. cbn [final] in G. apply G.
    unfold applyConfig, scanForPorts, findPorts, init_serial, init_actions,
      init_variables, updateVariables, clearAll, clearInterval, setInterval,
      fresh_handle, Date_now.
    walk same_leaf. }
  destruct (@list_resolved_empty status_repr (set_clock t1 w1) A11) as (u & Hrun2 & G).
  fields_in G. rewrite A10, A5, A6, A7, AL in G.
  injection G as G1 G2 G3 G4 G5 G6.
  assert (E : w2 = u).
  { subst w2. unfold run. cbn [fold_left]. unfold step. cbn [fst snd handle].
    rewrite Hrun. cbn [final]. rewrite Hrun2. reflexivity. }
  clearbody w2. subst w2.
  apply (@scan_after_delay status_repr (set_clock t2 u) t0); fields; auto.
  rewrite G6. exact Ht.
Qed.

(** * The further properties on the concrete session *)

Lemma scans_do_not_overlap_witness :
  scanning world_configured = true
  /\ no_list_callback turns_during_scan = true
  /\ (let w' := run status_names world_configured turns_during_scan in
      scanning w' = true
      /\ list_requests (trace w') = list_requests (trace world_configured)
      /\ foundPorts w' = foundPorts world_configured).
Proof.
  exact (conj eq_refl
           (conj eq_refl
              (@scans_do_not_overlap status_names turns_during_scan world_configured
                 eq_refl eq_refl))).
Defined.

Lemma scan_timer_idle_while_open_witness :
  lookup_timer 0%nat (timers world_two_clients) = Some (ScanInterval 5000)
  /\ sPort world_two_clients = Some (mkSerialPortObj true)
  /\ run status_names world_two_clients (tick_turns 0%nat [10000; 15000])
     = set_clock (last [10000; 15000] (clock world_two_clients)) world_two_clients.
Proof.
  exact (conj eq_refl
           (conj eq_refl
              (@scan_timer_idle_while_open status_names [10000; 15000] world_two_clients
                 0%nat 5000 eq_refl eq_refl))).
Defined.

Lemma successful_scan_replaces_found_ports_witness :
  scanning world_discovered = false
  /\ exists w',
      on_list_resolved status_names [com5] (final (findPorts world_discovered)) = Done tt w'
      /\ foundPorts w' = discovered [com5]
      /\ scanning w' = false.
Proof.
  exact (conj eq_refl
              (@successful_scan_replaces_found_ports status_names [com5] world_discovered
                 eq_refl)).
Defined.

Lemma socket_close_removes_that_client_witness :
  tSockets world_two_clients = Some ([] ++ client_a :: [client_b])%list
  /\ (forall s, In s [] -> sock_id s <> sock_id client_a)
  /\ exists w',
      on_socket_close client_a world_two_clients = Done tt w'
      /\ tSockets w' = Some ([] ++ [client_b])%list
      /\ isListening w' = (0 <? List.length ([] ++ [client_b]))%nat
      /\ trace w' = (trace world_two_clients
                     ++ [HostSetVariableValues (ip_addr_of ([] ++ [client_b]))])%list
      /\ sPort w' = sPort world_two_clients
      /\ tServer w' = tServer world_two_clients
      /\ timers w' = timers world_two_clients.
Proof.
  exact (conj eq_refl
           (conj (fun s (H : In s []) => False_ind _ H)
              (@socket_close_removes_that_client world_two_clients client_a [] [client_b]
                 eq_refl (fun s (H : In s []) => False_ind _ H)))).
Defined.

Lemma stranger_is_not_registered :
  forall s, In s [client_a; client_b] -> sock_id s <> sock_id stranger.
Proof. intros s [<-|[<-|[]]]; discriminate. Defined.

Lemma socket_close_of_stranger_drops_last_client_witness :
  tSockets world_two_clients = Some [client_a; client_b]
  /\ (forall s, In s [client_a; client_b] -> sock_id s <> sock_id stranger)
  /\ exists w',
      on_socket_close stranger world_two_clients = Done tt w'
      /\ tSockets w' = Some (removelast [client_a; client_b])
      /\ isListening w' = (0 <? List.length (removelast [client_a; client_b]))%nat.
Proof.
  exact (conj eq_refl
           (conj stranger_is_not_registered
              (@socket_close_of_stranger_drops_last_client world_two_clients stranger
                 [client_a; client_b] eq_refl stranger_is_not_registered))).
Defined.

Lemma client_b_is_new :
  forall s, In s [client_a] -> sock_id s <> sock_id client_b.
Proof. intros s [<-|[]]; discriminate. Defined.

Lemma connect_then_close_restores_clients_witness :
  tSockets world_one_client = Some [client_a]
  /\ (forall s, In s [client_a] -> sock_id s <> sock_id client_b)
  /\ (let w' := run status_names world_one_client
                    [(6500, EvConnection client_b); (6600, EvSocketClose client_b)] in
      tSockets w' = Some [client_a]
      /\ tServer w' = tServer world_one_client
      /\ isListening w' = (0 <? List.length [client_a])%nat
      /\ trace w'
         = (trace world_one_client
            ++ [HostSetVariableValues (ip_addr_of ([client_a] ++ [client_b]));
                SockOn client_b "err"; SockOn client_b "close"; SockOn client_b "data";
                HostSetVariableValues (ip_addr_of [client_a])])%list).
Proof.
  exact (conj eq_refl
           (conj client_b_is_new
              (@connect_then_close_restores_clients status_names world_one_client client_b
                 [client_a] 6500 6600 eq_refl client_b_is_new))).
Defined.

Lemma client_write_arms_watchdog_when_asked_witness :
  sPort world_two_clients = Some (mkSerialPortObj true)
  /\ config world_two_clients = Some sample_config
  /\ exists w',
      on_socket_data [x01]%byte world_two_clients = Done tt w'
      /\ (timers w', SERIAL_INTERVAL w', next_handle w')
         = (if response sample_config
            then ((timers world_two_clients
                   ++ [(next_handle world_two_clients,
                        WatchdogTimeout (maxresponse sample_config))])%list,
                  Some (next_handle world_two_clients), S (next_handle world_two_clients))
            else (timers world_two_clients, SERIAL_INTERVAL world_two_clients,
                  next_handle world_two_clients)).
Proof.
  exact (conj eq_refl
           (conj eq_refl
              (@client_write_arms_watchdog_when_asked world_two_clients [x01]%byte
                 (mkSerialPortObj true) sample_config eq_refl eq_refl))).
Defined.

Lemma client_write_without_port_throws_witness :
  sPort world_discovered = None
  /\ on_socket_data [x01]%byte world_discovered
     = Thrown (TypeError_undefined "write")
              (set_trace (trace world_discovered
                          ++ [HostLog debug ("TCP: " ++ toHex (latin1 [x01]%byte ++ " "))])
                         world_discovered).
Proof.
  exact (conj eq_refl
              (@client_write_without_port_throws world_discovered [x01]%byte eq_refl)).
Defined.

Lemma two_clients_handles_fresh : handles_fresh world_two_clients.
Proof. repeat constructor. Defined.

Lemma answered_write_leaves_no_watchdog_witness :
  handles_fresh world_two_clients
  /\ sPort world_two_clients = Some (mkSerialPortObj true)
  /\ config world_two_clients = Some sample_config
  /\ response sample_config = true
  /\ tSockets world_two_clients = Some [client_a; client_b]
  /\ (let w' := run status_names world_two_clients
                    [(7000, EvSocketData client_a [x01]%byte);
                     (7200, EvSerialData [x41]%byte)] in
      timers w' = timers world_two_clients
      /\ SERIAL_INTERVAL w' = Some (next_handle world_two_clients)
      /\ lookup_timer (next_handle world_two_clients) (timers w') = None).
Proof.
  exact (conj two_clients_handles_fresh
           (conj eq_refl (conj eq_refl (conj eq_refl (conj eq_refl
              (@answered_write_leaves_no_watchdog status_names world_two_clients client_a
                 [x01]%byte [x41]%byte 7000 7200 (mkSerialPortObj true) sample_config
                 [client_a; client_b] two_clients_handles_fresh
                 eq_refl eq_refl eq_refl eq_refl)))))).
Defined.


Lemma disconnect_while_listening_reports_listening_witness :
  isListening world_two_clients = true
  /\ disconnected disconnect_error = true
  /\ tSockets world_two_clients = Some [client_a; client_b]
  /\ tServer world_two_clients = Some (mkServer 0)
  /\ exists w',
      on_serial_close status_names (Some disconnect_error) world_two_clients = Done tt w'
      /\ isListening w' = false
      /\ lastStatus w'
         = Some (fingerprint status_names (listening_snapshot world_two_clients))
      /\ monitor_calls (trace w')
         = (monitor_calls (trace world_two_clients)
            ++ if differs (fingerprint status_names (listening_snapshot world_two_clients))
                          (lastStatus world_two_clients)
               then [snapshot_call (listening_snapshot world_two_clients)]
               else [])%list.
Proof.
  exact (conj eq_refl (conj eq_refl (conj eq_refl (conj eq_refl
           (@disconnect_while_listening_reports_listening status_names world_two_clients
              disconnect_error [client_a; client_b] (mkServer 0)
              eq_refl eq_refl eq_refl eq_refl))))).
Defined.

Lemma toHex_is_injective_witness :
  toHex "COM5" = toHex "COM5" /\ "COM5" = "COM5".
Proof.
  exact (conj eq_refl (@toHex_is_injective "COM5" "COM5" eq_refl)).
Defined.

Lemma configured_port_is_missing :
  forall p,
    In p [mkPortDescriptor "none" "Not configured"; mkPortDescriptor "COM5" "FTDI"] ->
    path p <> sport config_port_missing.
Proof. intros p [<-|[<-|[]]]; discriminate. Defined.

Lemma select_first_found_reads_instance_ports_witness :
  config world_port_missing = Some config_port_missing
  /\ foundPorts world_port_missing
     = mkPortDescriptor "none" "Not configured" :: [mkPortDescriptor "COM5" "FTDI"]
  /\ (forall p,
         In p [mkPortDescriptor "none" "Not configured"; mkPortDescriptor "COM5" "FTDI"] ->
         path p <> sport config_port_missing)
  /\ selectfirstfound config_port_missing = true
  /\ getConfigFields "port-regex" None world_port_missing
     = Thrown (TypeError_undefined "length")
              (set_trace (trace world_port_missing
                          ++ [HostLog info ("Previously selected port ("
                                            ++ sport config_port_missing
                                            ++ ") not found.")])
                         world_port_missing)
  /\ (forall (n : nat) (d' : PortDescriptor) (rest' : list PortDescriptor),
         (1 < n)%nat ->
         [mkPortDescriptor "COM5" "FTDI"] = d' :: rest' ->
         exists fields w',
           getConfigFields "port-regex" (Some n) world_port_missing = Done fields w'
           /\ config w' = Some (set_sport (path d') config_port_missing)
           /\ map f_id fields = serial_field_ids
           /\ foundPorts w' = foundPorts world_port_missing).
Proof.
  exact (conj eq_refl (conj eq_refl (conj configured_port_is_missing (conj eq_refl
           (@select_first_found_reads_instance_ports "port-regex" world_port_missing
              config_port_missing (mkPortDescriptor "none" "Not configured")
              [mkPortDescriptor "COM5" "FTDI"]
              eq_refl eq_refl configured_port_is_missing eq_refl))))).
Defined.

Lemma previous_port_action_witness :
  config world_discovered = Some sample_config
  /\ (let i := findIndex (sport sample_config) (foundPorts world_discovered) in
      (i <= 1 ->
       previousSPort_callback status_names world_discovered
       = Done tt (set_trace
                    (trace world_discovered
                     ++ [HostLog info "Cannot select previous Serial port in list: Already on the first port in the list."])
                    world_discovered))
      /\ (2 <= i ->
          exists d w',
            nth_error (foundPorts world_discovered) (Z.to_nat (i - 1)) = Some d
            /\ previousSPort_callback status_names world_discovered = Done tt w'
            /\ config w' = Some (set_sport (path d) sample_config)
            /\ sPortPath w' = (if truthy (path d) then path d else "none"))).
Proof.
  exact (conj eq_refl (@previous_port_action status_names world_discovered sample_config
                         eq_refl)).
Defined.

Lemma next_port_action_witness :
  config world_port_missing = Some config_port_missing
  /\ (let i := findIndex (sport config_port_missing) (foundPorts world_port_missing) in
      (Z.of_nat (List.length (foundPorts world_port_missing)) <= i + 1 ->
       nextSPort_callback status_names world_port_missing
       = Done tt (set_trace
                    (trace world_port_missing
                     ++ [HostLog info "Cannot select next Serial port in list: Already on the last port in the list."])
                    world_port_missing))
      /\ (i + 1 < Z.of_nat (List.length (foundPorts world_port_missing)) ->
          exists d w',
            nth_error (foundPorts world_port_missing) (Z.to_nat (i + 1)) = Some d
            /\ nextSPort_callback status_names world_port_missing = Done tt w'
            /\ config w' = Some (set_sport (path d) config_port_missing)
            /\ sPortPath w' = (if truthy (path d) then path d else "none"))).
Proof.
  exact (conj eq_refl (@next_port_action status_names world_port_missing
                         config_port_missing eq_refl)).
Defined.

Lemma closed_port_is_reopened_each_scan_witness :
  sPort world_opening = Some (mkSerialPortObj false)
  /\ config world_opening = Some sample_config
  /\ path_configured (sPortPath world_opening) = true
  /\ exists w',
      scanForPorts status_names world_opening = Done tt w'
      /\ filter is_serial_call (trace w')
         = (filter is_serial_call (trace world_opening)
            ++ [SerialNew (port_options world_opening sample_config);
                SerialOn "error"; SerialOn "open"; SerialOn "close"; SerialOn "data";
                SerialOpen])%list
      /\ sPort w' = Some (mkSerialPortObj false)
      /\ config w' = Some sample_config
      /\ sPortPath w' = sPortPath world_opening
      /\ count_calls is_serial_open (trace w')
         = S (count_calls is_serial_open (trace world_opening))
      /\ count_calls is_serial_release (trace w')
         = count_calls is_serial_release (trace world_opening).
Proof.
  exact (conj eq_refl (conj eq_refl (conj eq_refl
           (@closed_port_is_reopened_each_scan status_names world_opening sample_config
              eq_refl eq_refl eq_refl)))).
Defined.

Lemma no_device_is_reported_after_the_delay_witness :
  scanning constructed = false
  /\ foundPorts constructed = []
  /\ 0 + LOG_DELAY constructed <= 10000
  /\ (let w2 := run status_names constructed
                    [(0, EvInit sample_config); (100, EvListResolved [])] in
      let w3 := final (scanForPorts status_names (set_clock 10000 w2)) in
      lastStatus w3 = Some (fingerprint status_names no_ports_snapshot)
      /\ sPort w3 = None
      /\ tServer w3 = None
      /\ foundPorts w3 = []).
Proof.
  split; [reflexivity|]. split; [reflexivity|].
  split; [vm_compute; discriminate|].
  apply (@no_device_is_reported_after_the_delay status_names sample_config constructed
           0 100 10000); [reflexivity|reflexivity|vm_compute; discriminate].
Defined.
